(** * PySyft tutorial notebooks: Part 13a (public Keras training) and
      Part 12 (training on secret-shared data)

    The two notebooks of [examples/tutorials] are embedded as Rocq
    functions, cell by cell.  Tensors are strided arrays (a shape and a
    flat, row-major buffer) as in numpy and torch; the float32 arrays
    of Part 13a carry binary32 numbers, the float tensors of Part 12
    carry rationals, fixed-precision and shared tensors carry integers.  The
    calls into the [syft] tensor API are kept behind a type class, with
    an instance that computes in fixed precision; the calls into Keras
    go through a record of backend functions. *)

From Stdlib Require Import ZArith QArith Qround Qabs Lqa List Lia String.
From Stdlib Require Floats.SpecFloat.
From stdpp Require Import base option list gmap strings.
Import ListNotations.

(** ** Strided arrays *)

Module Array.

Record ndarray (A : Type) := NDArray { shape : list nat; data : list A }.
Arguments NDArray {A} _ _.
Arguments shape {A} _.
Arguments data {A} _.

(** Number of entries a shape asks for (numpy's [size]). *)
Definition size (sh : list nat) : nat := fold_right Nat.mul 1%nat sh.

Definition wf {A} (a : ndarray A) : Prop := length (data a) = size (shape a).

(** Entry-wise application, the shape is kept ([astype], [abs], [/=]). *)
Definition amap {A B} (f : A -> B) (a : ndarray A) : ndarray B :=
  {| shape := shape a; data := map f (data a) |}.

(** [a.reshape(sh)]: same buffer under a new shape; numpy raises
    ValueError when the sizes differ. *)
Definition reshape {A} (a : ndarray A) (sh : list nat) : option (ndarray A) :=
  if (size (shape a) =? size sh)%nat
  then Some {| shape := sh; data := data a |}
  else None.

Definition ncols {A} (rows : list (list A)) : nat :=
  match rows with
  | [] => 0%nat
  | r :: _ => length r
  end.

(** [torch.Tensor([...])] on a flat list and on a list of rows. *)
Definition Tensor_1d {A} (v : list A) : ndarray A :=
  {| shape := [length v]; data := v |}.

Definition Tensor_2d {A} (rows : list (list A)) : ndarray A :=
  {| shape := [length rows; ncols rows]; data := concat rows |}.

End Array.

Import Array.

(** ** Binary32 numbers *)

Module Float32.

(** IEEE 754 binary32: 24 bits of precision, exponents below 128. *)
Definition float32 : Type := SpecFloat.spec_float.
Definition prec : Z := 24.
Definition emax : Z := 128.

(** The float32 of an integer (rounded to nearest, ties to even). *)
Definition of_Z (k : Z) : float32 := SpecFloat.binary_normalize prec emax k 0 false.

Definition div (x y : float32) : float32 := SpecFloat.SFdiv prec emax x y.

(** The rational a finite float32 stands for. *)
Definition value (f : float32) : option Q :=
  match f with
  | SpecFloat.S754_zero _ => Some 0%Q
  | SpecFloat.S754_finite sign m e =>
      let q := match e with
               | Zneg p => (Zpos m # Pos.pow 2 p)%Q
               | _ => inject_Z (Zpos m * 2 ^ e)
               end in
      Some (if sign then (- q)%Q else q)
  | _ => None
  end.

End Float32.

(** ** Fixed-precision encoding *)

Module FixedPrecision.

(** [round]: nearest integer, ties to the even neighbour (what Python's
    and torch's [round] do). *)
Definition round (x : Q) : Z :=
  let f := Qfloor x in
  match (x - inject_Z f ?= 1 # 2)%Q with
  | Lt => f
  | Gt => (f + 1)%Z
  | Eq => if Z.even f then f else (f + 1)%Z
  end.

Section Scale.

(** The implicit scale factor (base ^ precision_fractional). *)
Variable s : positive.

Definition scaleQ : Q := inject_Z (Zpos s).

(** Modelled from the spec: [syft]'s [fix_precision] is not among the
    sources; an entry [x] becomes the integer [round (x * s)]. *)
Definition encode (x : Q) : Z := round (x * scaleQ).

(** Modelled from the spec: [syft]'s [float_precision] (alias
    [float_prec]) is not among the sources; it divides by the scale. *)
Definition decode (n : Z) : Q := (inject_Z n / scaleQ)%Q.

Definition fix_precision (a : ndarray Q) : ndarray Z := amap encode a.
Definition float_precision (a : ndarray Z) : ndarray Q := amap decode a.

End Scale.

End FixedPrecision.

(** ** Integer tensors of rank one and two *)

Module Torch.

(** A rank-one tensor of length [c] is read as a single row. *)
Definition view2 (sh : list nat) : option (nat * nat) :=
  match sh with
  | [c] => Some (1%nat, c)
  | [r; c] => Some (r, c)
  | _ => None
  end.

(** Broadcasting of one dimension: equal, or one of the two is 1. *)
Definition bdim (a b : nat) : option nat :=
  if (a =? b)%nat then Some a
  else if (a =? 1)%nat then Some b
  else if (b =? 1)%nat then Some a
  else None.

Definition bshape (sa sb : list nat) (r c : nat) : list nat :=
  match sa, sb with
  | [_], [_] => [c]
  | _, _ => [r; c]
  end.

(** Entry [(i, j)] of [a] seen as an [r] x [c] array and stretched along
    its dimensions of extent 1. *)
Definition bget (a : ndarray Z) (r c i j : nat) : Z :=
  nth ((if (r =? 1)%nat then 0 else i) * c + (if (c =? 1)%nat then 0 else j))%nat
      (data a) 0%Z.

(** Entry-wise binary operation with broadcasting; [None] stands for
    torch's RuntimeError on incompatible shapes (ranks other than one
    and two are outside the model). *)
Definition broadcast (f : Z -> Z -> Z) (a b : ndarray Z) : option (ndarray Z) :=
  '(ra, ca) ← view2 (shape a);
  '(rb, cb) ← view2 (shape b);
  r ← bdim ra rb;
  c ← bdim ca cb;
  Some {| shape := bshape (shape a) (shape b) r c;
          data := flat_map (fun i =>
                    map (fun j => f (bget a ra ca i j) (bget b rb cb i j))
                        (seq 0 c)) (seq 0 r) |}.

Definition sub : ndarray Z -> ndarray Z -> option (ndarray Z) := broadcast Z.sub.
Definition mul : ndarray Z -> ndarray Z -> option (ndarray Z) := broadcast Z.mul.

Definition at2 (a : ndarray Z) (c i j : nat) : Z := nth (i * c + j)%nat (data a) 0%Z.

(** [f 0 + ... + f (n - 1)] *)
Definition sum_to (n : nat) (f : nat -> Z) : Z := fold_right Z.add 0%Z (map f (seq 0 n)).

Definition dot (a b : ndarray Z) (k m i j : nat) : Z :=
  sum_to k (fun l => (at2 a k i l * at2 b m l j)%Z).

(** Matrix product of two rank-two tensors; the inner extents must
    agree. *)
Definition matmul (a b : ndarray Z) : option (ndarray Z) :=
  match shape a, shape b with
  | [n; k], [k'; m] =>
      if (k =? k')%nat
      then Some {| shape := [n; m];
                   data := flat_map (fun i => map (fun j => dot a b k m i j) (seq 0 m))
                                    (seq 0 n) |}
      else None
  | _, _ => None
  end.

(** [a.t()]: transposition of a matrix; tensors of rank below two are
    returned as they are, higher ranks are refused. *)
Definition t (a : ndarray Z) : option (ndarray Z) :=
  match shape a with
  | [] | [_] => Some a
  | [n; m] =>
      Some {| shape := [m; n];
              data := flat_map (fun j => map (fun i => at2 a m i j) (seq 0 n)) (seq 0 m) |}
  | _ => None
  end.

Definition abs (a : ndarray Z) : ndarray Z := amap Z.abs a.

(** [a.sum()], shown by the notebook's output as a one-entry tensor. *)
Definition sum (a : ndarray Z) : ndarray Z :=
  {| shape := [1%nat]; data := [fold_right Z.add 0%Z (data a)] |}.

End Torch.

(** ** Least squares on integer tensors *)

Module LeastSquares.

(** Inner product of two columns of [n] entries. *)
Definition inner (n : nat) (a b : ndarray Z) : Z :=
  Torch.sum_to n (fun i => (Torch.at2 a 1 i 0 * Torch.at2 b 1 i 0)%Z).

(** The squared error of a residual column. *)
Definition squared_error (n : nat) (err : ndarray Z) : Z := inner n err err.

(** The residual [X M - y] and the update [Xᵀ (X M - y)]. *)
Definition lsq_residual (X y M : ndarray Z) : option (ndarray Z) :=
  pred ← Torch.matmul X M;
  Torch.sub pred y.

Definition lsq_update (X y M : ndarray Z) : option (ndarray Z) :=
  err ← lsq_residual X y M;
  Xt ← Torch.t X;
  Torch.matmul Xt err.

(** The model [M] moved by [D]. *)
Definition moved (M D : ndarray Z) : option (ndarray Z) := Torch.broadcast Z.add M D.

(** *** Entry by entry, on integers that stand for multiples of [1/sc] *)

(** Entry [i] of a column. *)
Definition col (a : ndarray Z) (i : nat) : Z := Torch.at2 a 1 i 0.

(** Entry [i] of [X M], for [X] with [k] columns. *)
Definition product_row (X M : ndarray Z) (k i : nat) : Z :=
  Torch.sum_to k (fun j => (Torch.at2 X k i j * col M j)%Z).

(** Entry [i] of the residual [X M - y]; a product of two numbers at
    scale [sc] is at scale [sc * sc], and so is [sc * y]. *)
Definition raw_residual (sc : Z) (X y M : ndarray Z) (k i : nat) : Z :=
  (product_row X M k i - sc * col y i)%Z.

(** The squared error of the linear model [M] on [n] samples. *)
Definition raw_squared_error (sc : Z) (X y M : ndarray Z) (n k : nat) : Z :=
  Torch.sum_to n (fun i => (raw_residual sc X y M k i ^ 2)%Z).

(** Entry [l] of [Xᵀ (X M - y)], the gradient of half the squared
    error. *)
Definition raw_gradient (sc : Z) (X y M : ndarray Z) (n k l : nat) : Z :=
  Torch.sum_to n (fun i => (Torch.at2 X k i l * raw_residual sc X y M k i)%Z).

(** The sum of the absolute values in column [l] of [X]. *)
Definition column_weight (X : ndarray Z) (n k l : nat) : Z :=
  Torch.sum_to n (fun i => Z.abs (Torch.at2 X k i l)).

End LeastSquares.

(** ** The tensor API of [syft] used by Part 12 *)

Module Syft.

(** [sy.VirtualWorker(id=..., hook=hook)]; the hook is the single global
    one and is left out. *)
Record VirtualWorker := { id : string }.

#[global] Instance VirtualWorker_eq_dec : EqDecision VirtualWorker.
Proof. solve_decision. Defined.

(** The calls the notebook makes on fixed-precision tensors ([Fixed]) and
    on shared tensors ([Shared]).  Operations that torch refuses on
    incompatible shapes return [None]. *)
Class TensorAPI (Fixed Shared : Type) := {
  fix_precision : ndarray Q -> Fixed;
  float_precision : Fixed -> ndarray Q;
  share : Fixed -> list VirtualWorker -> VirtualWorker -> Shared;
  get : Shared -> Fixed;
  matmul : Shared -> Shared -> option Shared;
  t : Shared -> option Shared;
  sub : Shared -> Shared -> option Shared;
  mul : Shared -> Shared -> option Shared;
  abs : Fixed -> Fixed;
  sum : Fixed -> Fixed
}.

(** [float_prec] is the short name of [float_precision]. *)
Definition float_prec {Fixed Shared : Type} `{TensorAPI Fixed Shared} : Fixed -> ndarray Q :=
  float_precision.

(** How the quotient by the scale is rounded after a product. *)
Inductive Rounding := Floor | TowardZero.

Definition idiv (r : Rounding) : Z -> Z -> Z :=
  match r with
  | Floor => Z.div
  | TowardZero => Z.quot
  end.

(** A tensor shared between [owners], with [crypto_provider] supplying
    the material for products.  [child] is the value the shares add up
    to: the arithmetic on shares is modelled by its exact result. *)
Record AdditiveSharingTensor := {
  child : ndarray Z;
  owners : list VirtualWorker;
  crypto_provider : VirtualWorker
}.

(** Everyone who takes part in a shared tensor: the owners of the
    shares and the crypto provider, by id. *)
Definition parties (a : AdditiveSharingTensor) : gset string :=
  list_to_set (id <$> owners a) ∪ {[ id (crypto_provider a) ]}.

Definition same_parties (a b : AdditiveSharingTensor) : bool :=
  bool_decide (owners a = owners b) && bool_decide (crypto_provider a = crypto_provider b).

(** [a] is held by the parties of [X]. *)
Definition held_like (X a : AdditiveSharingTensor) : Prop :=
  owners a = owners X /\ crypto_provider a = crypto_provider X.

(** A binary operation on shares is run by the parties that hold both
    operands. *)
Definition lift2 (f : ndarray Z -> ndarray Z -> option (ndarray Z))
    (a b : AdditiveSharingTensor) : option AdditiveSharingTensor :=
  if same_parties a b
  then c ← f (child a) (child b);
       Some {| child := c; owners := owners a; crypto_provider := crypto_provider a |}
  else None.

Definition lift1 (f : ndarray Z -> option (ndarray Z))
    (a : AdditiveSharingTensor) : option AdditiveSharingTensor :=
  c ← f (child a);
  Some {| child := c; owners := owners a; crypto_provider := crypto_provider a |}.

Section Exact.

Variable s : positive.
Variable rnd : Rounding.

(** Division of every entry by the scale, after a product. *)
Definition truncate (a : ndarray Z) : ndarray Z := amap (fun x => idiv rnd x (Zpos s)) a.

Definition fp_matmul (a b : ndarray Z) : option (ndarray Z) := truncate <$> Torch.matmul a b.
Definition fp_mul (a b : ndarray Z) : option (ndarray Z) := truncate <$> Torch.mul a b.

(** What fixed precision makes of a gradient step, entry by entry: the
    residual of sample [i], entry [l] of the update, and the amount by
    which entry [l] of the model moves; every product is divided by the
    scale. *)
Definition fixed_residual (X y M : ndarray Z) (k i : nat) : Z :=
  (idiv rnd (LeastSquares.product_row X M k i) (Zpos s) - LeastSquares.col y i)%Z.

Definition fixed_update (X y M : ndarray Z) (n k l : nat) : Z :=
  idiv rnd (Torch.sum_to n (fun i => (Torch.at2 X k i l * fixed_residual X y M k i)%Z)) (Zpos s).

Definition fixed_step (X y lr M : ndarray Z) (n k l : nat) : Z :=
  idiv rnd (fixed_update X y M n k l * nth 0 (data lr) 0%Z) (Zpos s).

(** Modelled from the spec: the implementation of the API is not among
    the sources; this one computes in exact fixed-precision integer
    arithmetic at scale [s]. *)
#[local] Instance exact_api : TensorAPI (ndarray Z) AdditiveSharingTensor := {|
  fix_precision := FixedPrecision.fix_precision s;
  float_precision := FixedPrecision.float_precision s;
  share := fun x ws cp => {| child := x; owners := ws; crypto_provider := cp |};
  get := child;
  matmul := lift2 fp_matmul;
  t := lift1 Torch.t;
  sub := lift2 Torch.sub;
  mul := lift2 fp_mul;
  abs := Torch.abs;
  sum := Torch.sum
|}.

End Exact.

End Syft.

(** ** Part 12: training on secret-shared data *)

Module Part12.

Import Syft.

(** Cell 2 *)
Definition alice : VirtualWorker := {| id := "alice" |}.
Definition bob : VirtualWorker := {| id := "bob" |}.
Definition james : VirtualWorker := {| id := "james" |}.

(** The workers the notebook creates. *)
Definition workers : list VirtualWorker := [alice; bob; james].

(** Cell 3 *)
Definition data : ndarray Q := Tensor_2d [[0; 0]; [0; 1]; [1; 0]; [1; 1]]%Q.
Definition target : ndarray Q := Tensor_2d [[0]; [0]; [1]; [1]]%Q.

(** Cell 4 *)
Definition model : ndarray Q := Tensor_2d [[0]; [0]]%Q.
Definition learning_rate : Q := (1 # 10)%Q.

(** The variables that live on after cell 5, and the printed output. *)
Record Env (Shared : Type) := {
  data_enc : Shared;
  target_enc : Shared;
  model_enc : Shared;
  learning_rate_fp : Shared;
  stdout : list (ndarray Q)
}.
Arguments data_enc {Shared} _.
Arguments target_enc {Shared} _.
Arguments model_enc {Shared} _.
Arguments learning_rate_fp {Shared} _.
Arguments stdout {Shared} _.

(** [for i in range(n): body]; an error in the body ends the run. *)
Definition for_range {S} (n : nat) (body : nat -> S -> option S) (st : S) : option S :=
  foldl (fun acc i => acc ≫= body i) (Some st) (seq 0 n).

Section Notebook.

Context {Fixed Shared : Type} `{API : TensorAPI Fixed Shared}.

(** Cell 5, on any data, target, model and learning rate. *)
Definition cell5 (data target model : ndarray Q) (learning_rate : Q) : Env Shared :=
  {| data_enc := share (fix_precision data) [alice; bob] james;
     target_enc := share (fix_precision target) [alice; bob] james;
     model_enc := share (fix_precision model) [alice; bob] james;
     learning_rate_fp := share (fix_precision (Tensor_1d [learning_rate])) [alice; bob] james;
     stdout := [] |}.

(** The body of the loop of cell 6. *)
Definition loop_body (i : nat) (e : Env Shared) : option (Env Shared) :=
  pred ← matmul (data_enc e) (model_enc e);
  err ← sub pred (target_enc e);
  data_enc_t ← t (data_enc e);
  update ← matmul data_enc_t err;
  step ← mul update (learning_rate_fp e);
  model_enc' ← sub (model_enc e) step;
  let loss := float_prec (sum (abs (get err))) in
  Some {| data_enc := data_enc e;
          target_enc := target_enc e;
          model_enc := model_enc';
          learning_rate_fp := learning_rate_fp e;
          stdout := stdout e ++ [loss] |}.

(** Cell 6 *)
Definition cell6 (e : Env Shared) : option (Env Shared) := for_range 20 loop_body e.

(** Cell 7 *)
Definition cell7 (e : Env Shared) : ndarray Q := float_precision (get (model_enc e)).

(** Cells 3 to 7 in order, on the notebook's own values. *)
Definition run_cells : option (Env Shared * ndarray Q) :=
  e ← cell6 (cell5 data target model learning_rate);
  Some (e, cell7 e).

(** *** Gradient descent, as the specification words it *)

(** The residual [X M - y] of the linear model [M]. *)
Definition residual (X y M : Shared) : option Shared :=
  pred ← matmul X M;
  sub pred y.

(** One gradient-descent step for least squares: the gradient of the
    squared error is (twice) [Xᵀ (X M - y)], and the model moves against
    it by the learning rate. *)
Definition gradient_step (X y lr M : Shared) : option Shared :=
  err ← residual X y M;
  Xt ← t X;
  gradient ← matmul Xt err;
  scaled ← mul gradient lr;
  sub M scaled.

(** The loss reported for a model: the sum of the absolute residuals. *)
Definition reported_loss (X y M : Shared) : option (ndarray Q) :=
  err ← residual X y M;
  Some (float_prec (sum (abs (get err)))).

(** [n] steps in a row, with the loss of the model each step starts
    from. *)
Fixpoint descend (n : nat) (X y lr M : Shared) : option (Shared * list (ndarray Q)) :=
  match n with
  | O => Some (M, [])
  | S n' =>
      '(M', losses) ← descend n' X y lr M;
      loss ← reported_loss X y M';
      M'' ← gradient_step X y lr M';
      Some (M'', losses ++ [loss])
  end.

(** The same variables under another representation of shared
    tensors. *)
Definition env_map {Shared' : Type} (h : Shared -> Shared') (e : Env Shared) : Env Shared' :=
  {| data_enc := h (data_enc e);
     target_enc := h (target_enc e);
     model_enc := h (model_enc e);
     learning_rate_fp := h (learning_rate_fp e);
     stdout := stdout e |}.

End Notebook.

(** "The notebook's code holds no arithmetic that updates the model
    parameters": the API has no training call, so a pass through the
    loop body would leave [model_enc] as it was, whatever the library
    computes. *)
Definition no_update_arithmetic : Prop :=
  forall (Fixed Shared : Type) (API : TensorAPI Fixed Shared) (i : nat) (e e' : Env Shared),
    loop_body i e = Some e' -> model_enc e' = model_enc e.

(** Tensors a linear regression can run on: [n] samples of [k]
    features, one target each, a column of [k] parameters and a
    one-entry learning rate, all held by the same parties. *)
Definition regression_shapes (n k : nat) (e : Env AdditiveSharingTensor) : Prop :=
  shape (child (data_enc e)) = [n; k] /\
  shape (child (target_enc e)) = [n; 1%nat] /\
  shape (child (model_enc e)) = [k; 1%nat] /\
  shape (child (learning_rate_fp e)) = [1%nat] /\
  held_like (data_enc e) (target_enc e) /\
  held_like (data_enc e) (model_enc e) /\
  held_like (data_enc e) (learning_rate_fp e).

(** The output recorded in the notebook under cell 6, and under
    cell 7. *)
Definition recorded_losses : list Q :=
  [2; 1.6000; 1.3000; 1.0720; 0.8960; 0.7580; 0.6480; 0.5600; 0.4880; 0.4280;
   0.3760; 0.3340; 0.2960; 0.2640; 0.2360; 0.2100; 0.1900; 0.1720; 0.1560; 0.1400]%Q.

Definition recorded_model : ndarray Q := Tensor_2d [[0.9370]; [0.0610]]%Q.

(** The numbers printed by the loop, in order. *)
Definition losses {Shared : Type} (e : Env Shared) : list Q :=
  flat_map Array.data (stdout e).

(** Every entry is below the one before it. *)
Fixpoint strictly_decreasing (l : list Q) : Prop :=
  match l with
  | x :: (y :: _) as rest => (y < x)%Q /\ strictly_decreasing rest
  | _ => True
  end.

End Part12.

(** ** Additive sharing of a value between two owners *)

Module AdditiveSharing.

Import Syft.

Section Field.

(** Shares are integers modulo [field]. *)
Variable field : Z.

Definition in_field (v : Z) : Prop := (0 <= v < field)%Z.

(** Modelled from the spec: [syft]'s [share] is not among the sources.
    A value is split into two shares: the first is the random mask [r],
    the second is what is missing to the value, modulo [field]. *)
Definition split (secret r : Z) : Z * Z := ((r mod field)%Z, ((secret - r) mod field)%Z).

Definition reconstruct (sh : Z * Z) : Z := ((sh.1 + sh.2) mod field)%Z.

(** The mask under which [secret'] has the second share that [secret]
    has under [r]. *)
Definition remask (secret secret' r : Z) : Z := ((secret' - secret + r) mod field)%Z.

(** Modelled from the spec: sharing a tensor between the two owners
    [w1] and [w2], entry by entry, with one mask per entry; every owner
    receives its own buffer of shares, nobody else receives anything. *)
Definition share_between (w1 w2 : VirtualWorker) (secrets masks : list Z)
    : gmap string (list Z) :=
  let shares := zip_with split secrets masks in
  <[id w2 := shares.*2]> (<[id w1 := shares.*1]> ∅).

(** What a single worker holds of a shared tensor. *)
Definition view (w : VirtualWorker) (held : gmap string (list Z)) : option (list Z) :=
  held !! id w.

(** Summing the two buffers gives the tensor back. *)
Definition get_between (w1 w2 : VirtualWorker) (held : gmap string (list Z))
    : option (list Z) :=
  a ← held !! id w1;
  b ← held !! id w2;
  Some (zip_with (fun x y => reconstruct (x, y)) a b).

End Field.

End AdditiveSharing.

(** ** The Keras calls used by Part 13a *)

Module Keras.

Inductive Layer :=
  | Conv2D (filters : nat) (kernel_size : nat * nat) (input_shape : option (list nat))
  | AveragePooling2D (pool_size : nat * nat)
  | Activation (activation : string)
  | Flatten
  | Dense (units : nat) (activation : option string).

(** The input shape a layer is given at construction, if any. *)
Definition declared_input_shape (l : Layer) : option (list nat) :=
  match l with
  | Conv2D _ _ sh => sh
  | _ => None
  end.

(** Shape of a layer's output for one sample (channels last, no padding,
    convolution stride 1, pooling stride equal to the pool size);
    [None] is the ValueError Keras raises on a shape it cannot use. *)
Definition compute_output_shape (l : Layer) (sh : list nat) : option (list nat) :=
  match l, sh with
  | Conv2D filters (kh, kw) _, [h; w; _] =>
      if ((1 <=? kh) && (kh <=? h) && (1 <=? kw) && (kw <=? w))%nat
      then Some [h - kh + 1; w - kw + 1; filters]%nat
      else None
  | AveragePooling2D (ph, pw), [h; w; c] =>
      if ((1 <=? ph) && (ph <=? h) && (1 <=? pw) && (pw <=? w))%nat
      then Some [(h - ph) / ph + 1; (w - pw) / pw + 1; c]%nat
      else None
  | Activation _, _ => Some sh
  | Flatten, _ => Some [size sh]
  | Dense units _, _ :: _ => Some (removelast sh ++ [units])
  | _, _ => None
  end.

Record Compiled := {
  loss : string;
  optimizer : string;
  metrics : list string
}.

Import Float32.

(** What the notebook leaves to TensorFlow: initial weights, the
    training run, the evaluation of the loss and of a metric, and the
    lines the library writes to the output while it builds and trains
    the model (its warnings, and the progress of [fit] under
    [verbose=1]).  Samples are float32 arrays; targets hold the exact
    values 0 and 1. *)
Record Backend := {
  Weights : Type;
  initializer : Layer -> list nat -> Weights;
  train : list Layer -> Compiled -> list Weights ->
          ndarray float32 -> ndarray Q -> nat -> nat ->
          option (ndarray float32 * ndarray Q) ->
          list Weights;
  test_loss : list Layer -> Compiled -> list Weights -> ndarray float32 -> ndarray Q -> Q;
  test_metric : string -> list Layer -> list Weights -> ndarray float32 -> ndarray Q -> Q;
  console : list Layer -> Compiled -> list Weights ->
            ndarray float32 -> ndarray Q -> nat -> nat ->
            option (ndarray float32 * ndarray Q) ->
            list string
}.

Section Model.

Variable B : Backend.

(** A [Sequential] model: its layers, the per-sample input and output
    shapes once the first layer has fixed them, one block of weights per
    layer, and the configuration set by [compile]. *)
Record Sequential := {
  layers : list Layer;
  built : option (list nat * list nat);
  weights : list (Weights B);
  compiled : option Compiled
}.

Definition Sequential_new : Sequential :=
  {| layers := []; built := None; weights := []; compiled := None |}.

(** [model.add(l)].  The first layer must declare its input shape (a
    model whose shape is fixed at the first call is outside the model);
    a layer that cannot take the current output shape is refused. *)
Definition add (l : Layer) (m : Sequential) : option Sequential :=
  match built m with
  | Some (inp, out) =>
      out' ← compute_output_shape l out;
      Some {| layers := layers m ++ [l];
              built := Some (inp, out');
              weights := weights m ++ [initializer B l out];
              compiled := compiled m |}
  | None =>
      inp ← declared_input_shape l;
      out ← compute_output_shape l inp;
      Some {| layers := layers m ++ [l];
              built := Some (inp, out);
              weights := weights m ++ [initializer B l inp];
              compiled := compiled m |}
  end.

(** [model.compile(loss=..., optimizer=..., metrics=...)] *)
Definition compile (c : Compiled) (m : Sequential) : Sequential :=
  {| layers := layers m; built := built m; weights := weights m; compiled := Some c |}.

(** The samples of [x] and [y] fit the model: same count, and the
    per-sample shapes are the model's input and output shapes. *)
Definition accepts {A C : Type} (m : Sequential) (x : ndarray A) (y : ndarray C) : bool :=
  match built m, shape x, shape y with
  | Some (inp, out), n :: sx, n' :: sy =>
      bool_decide (n = n') && bool_decide (sx = inp) && bool_decide (sy = out)
  | _, _, _ => false
  end.

(** [model.fit(x, y, batch_size, epochs, validation_data)]: refused on a
    model that is not compiled or on data of the wrong shape; otherwise
    the weights are replaced by the trained ones. *)
Definition fit (x : ndarray float32) (y : ndarray Q) (batch_size epochs : nat)
    (validation_data : option (ndarray float32 * ndarray Q)) (m : Sequential)
    : option Sequential :=
  c ← compiled m;
  if accepts m x y &&
     match validation_data with
     | Some (vx, vy) => accepts m vx vy
     | None => true
     end
  then Some {| layers := layers m;
               built := built m;
               weights := train B (layers m) c (weights m) x y batch_size epochs
                                validation_data;
               compiled := compiled m |}
  else None.

(** [model.evaluate(x, y)]: the loss followed by the compiled metrics. *)
Definition evaluate (x : ndarray float32) (y : ndarray Q) (m : Sequential) : option (list Q) :=
  c ← compiled m;
  if accepts m x y
  then Some (test_loss B (layers m) c (weights m) x y ::
             map (fun name => test_metric B name (layers m) (weights m) x y) (metrics c))
  else None.

(** [model.save(path)]: the file at [path] receives the model as it is
    (layers, weights, configuration); the model itself is only read. *)
Definition save (path : string) (m : Sequential) (files : gmap string Sequential)
    : Sequential * gmap string Sequential :=
  (m, <[path := m]> files).

End Model.

Arguments layers {B} _.
Arguments built {B} _.
Arguments weights {B} _.
Arguments compiled {B} _.
Arguments add {B} _ _.
Arguments compile {B} _ _.
Arguments accepts {B A C} _ _ _.
Arguments fit {B} _ _ _ _ _ _.
Arguments evaluate {B} _ _ _.
Arguments save {B} _ _ _.

(** [keras.utils.to_categorical(y, num_classes)]: one row per label,
    1 at the label's position; a label outside the classes is an
    IndexError.  A last axis of extent 1 (labels stored as a column) is
    dropped before the class axis is added. *)
Definition one_hot (num_classes : nat) (label : nat) : list Q :=
  map (fun j => if (j =? label)%nat then 1%Q else 0%Q) (seq 0 num_classes).

Definition squeeze_last (sh : list nat) : list nat :=
  match sh with
  | _ :: _ :: _ => if (List.last sh 0 =? 1)%nat then List.removelast sh else sh
  | _ => sh
  end.

Definition to_categorical (y : ndarray Byte.byte) (num_classes : nat) : option (ndarray Q) :=
  if forallb (fun b => (N.to_nat (Byte.to_N b) <? num_classes)%nat) (data y)
  then Some {| shape := squeeze_last (shape y) ++ [num_classes];
               data := flat_map (fun b => one_hot num_classes (N.to_nat (Byte.to_N b)))
                                (data y) |}
  else None.

End Keras.

(** ** Part 13a: public training with Keras *)

Module Part13a.

Import Keras Float32.

Definition batch_size : nat := 128.
Definition num_classes : nat := 10.
Definition epochs : nat := 2.
Definition img_rows : nat := 28.
Definition img_cols : nat := 28.
Definition input_shape : list nat := [img_rows; img_cols; 1%nat].

(** Values handed to [print]. *)
Inductive PyVal :=
  | PStr (s : string)
  | PInt (n : nat)
  | PShape (sh : list nat)
  | PFloat (q : Q).

(** [x.astype('float32')] on an array of bytes. *)
Definition astype_float32 (x : ndarray Byte.byte) : ndarray float32 :=
  amap (fun b => of_Z (Z.of_N (Byte.to_N b))) x.

(** [x /= d] on a float32 array, [d] a Python integer: numpy divides in
    float32. *)
Definition itruediv (x : ndarray float32) (d : Z) : ndarray float32 :=
  amap (fun f => div f (of_Z d)) x.

Section Notebook.

Variable B : Backend.

(** The arrays returned by [mnist.load_data()]. *)
Variable mnist_load_data :
  (ndarray Byte.byte * ndarray Byte.byte) * (ndarray Byte.byte * ndarray Byte.byte).

(** The variables alive at the end of a cell, the printed output and
    the files written. *)
Record Kernel := {
  x_train : ndarray float32;
  y_train : ndarray Q;
  x_test : ndarray float32;
  y_test : ndarray Q;
  model : Sequential B;
  score : list Q;
  stdout : list (list PyVal);
  files : gmap string (Sequential B)
}.

(** What the library writes while cell 1 builds and fits the model,
    line by line. *)
Definition library_lines (m : Sequential B) (x_train : ndarray float32) (y_train : ndarray Q)
    (x_test : ndarray float32) (y_test : ndarray Q) : list (list PyVal) :=
  match compiled m with
  | Some c =>
      map (fun line => [PStr line])
          (console B (layers m) c (weights m) x_train y_train batch_size epochs
                   (Some (x_test, y_test)))
  | None => []
  end.

(** The layer stack of cell 1, from [Sequential()] to the last [add]. *)
Definition assemble : option (Sequential B) :=
  let model := Sequential_new B in
  model ← add (Conv2D 10 (3, 3) (Some input_shape)) model;
  model ← add (AveragePooling2D (2, 2)) model;
  model ← add (Activation "relu") model;
  model ← add (Conv2D 32 (3, 3) None) model;
  model ← add (AveragePooling2D (2, 2)) model;
  model ← add (Activation "relu") model;
  model ← add (Conv2D 64 (3, 3) None) model;
  model ← add (AveragePooling2D (2, 2)) model;
  model ← add (Activation "relu") model;
  model ← add Flatten model;
  add (Dense num_classes (Some "softmax")) model.

(** Cell 1.  The data set is read from the local cache, so loading it
    writes nothing; between the third and the fourth [print] the
    library writes its own lines to the same output. *)
Definition cell1 (files : gmap string (Sequential B)) : option Kernel :=
  let '((x_train, y_train), (x_test, y_test)) := mnist_load_data in
  n ← shape x_train !! 0%nat;
  x_train ← reshape x_train [n; img_rows; img_cols; 1%nat];
  n ← shape x_test !! 0%nat;
  x_test ← reshape x_test [n; img_rows; img_cols; 1%nat];
  let x_train := astype_float32 x_train in
  let x_test := astype_float32 x_test in
  let x_train := itruediv x_train 255 in
  let x_test := itruediv x_test 255 in
  n_train ← shape x_train !! 0%nat;
  n_test ← shape x_test !! 0%nat;
  let out := [[PStr "x_train shape:"; PShape (shape x_train)];
              [PInt n_train; PStr "train samples"];
              [PInt n_test; PStr "test samples"]] in
  y_train ← to_categorical y_train num_classes;
  y_test ← to_categorical y_test num_classes;
  model ← assemble;
  let model := compile {| loss := "categorical_crossentropy";
                          optimizer := "Adadelta";
                          metrics := ["accuracy"] |} model in
  let written := library_lines model x_train y_train x_test y_test in
  model ← fit x_train y_train batch_size epochs (Some (x_test, y_test)) model;
  score ← evaluate x_test y_test model;
  score_0 ← score !! 0%nat;
  score_1 ← score !! 1%nat;
  Some {| x_train := x_train; y_train := y_train;
          x_test := x_test; y_test := y_test;
          model := model;
          score := score;
          stdout := out ++ written ++
                    [[PStr "Test loss:"; PFloat score_0];
                     [PStr "Test accuracy:"; PFloat score_1]];
          files := files |}.

(** Cell 2 *)
Definition cell2 (k : Kernel) : Kernel :=
  let '(model, files) := save "short-conv-mnist.h5" (model k) (files k) in
  {| x_train := x_train k; y_train := y_train k;
     x_test := x_test k; y_test := y_test k;
     model := model;
     score := score k;
     stdout := stdout k;
     files := files |}.

(** Both cells in order. *)
Definition run_notebook (files : gmap string (Sequential B)) : option Kernel :=
  cell2 <$> cell1 files.

(** The compile configuration of cell 1. *)
Definition configuration : Compiled :=
  {| loss := "categorical_crossentropy"; optimizer := "Adadelta"; metrics := ["accuracy"] |}.

End Notebook.

Arguments x_train {B} _.
Arguments y_train {B} _.
Arguments x_test {B} _.
Arguments y_test {B} _.
Arguments model {B} _.
Arguments score {B} _.
Arguments stdout {B} _.
Arguments files {B} _.

(** *** The statements of the specification *)

(** What [mnist.load_data()] returns: images of 28 x 28 bytes with one
    label below 10 each, for training and for testing. *)
Definition mnist_format
    (d : (ndarray Byte.byte * ndarray Byte.byte) * (ndarray Byte.byte * ndarray Byte.byte))
    : Prop :=
  let '((x_train, y_train), (x_test, y_test)) := d in
  exists n m : nat,
    shape x_train = [n; 28; 28]%nat /\ shape y_train = [n] /\
    shape x_test = [m; 28; 28]%nat /\ shape y_test = [m] /\
    Forall (fun b => (N.to_nat (Byte.to_N b) < 10)%nat) (data y_train) /\
    Forall (fun b => (N.to_nat (Byte.to_N b) < 10)%nat) (data y_test).

(** A convolution, an average pooling and a ReLU. *)
Definition conv_block (ls : list Layer) : Prop :=
  exists filters kernel_size input_shape pool_size,
    ls = [Conv2D filters kernel_size input_shape; AveragePooling2D pool_size;
          Activation "relu"].

(** Three such blocks, then [Flatten] and a softmax [Dense] layer of
    [classes] units. *)
Definition convolutional_classifier (classes : nat) (ls : list Layer) : Prop :=
  exists b1 b2 b3,
    conv_block b1 /\ conv_block b2 /\ conv_block b3 /\
    ls = b1 ++ b2 ++ b3 ++ [Flatten; Dense classes (Some "softmax")].

(** The per-sample shape after each layer of a stack, from [sh] on. *)
Fixpoint shape_trace (sh : list nat) (ls : list Layer) : option (list (list nat)) :=
  match ls with
  | [] => Some []
  | l :: ls' =>
      out ← compute_output_shape l sh;
      rest ← shape_trace out ls';
      Some (out :: rest)
  end.

(** A pixel byte on the unit scale: the float32 quotient by 255. *)
Definition unit_scale (b : Byte.byte) : float32 :=
  div (of_Z (Z.of_N (Byte.to_N b))) (of_Z 255).

(** An entry that stands for the fraction [k / 255] of some byte [k]. *)
Definition byte_fraction (f : float32) : Prop :=
  exists (b : Byte.byte) (q : Q),
    value f = Some q /\ (q == inject_Z (Z.of_N (Byte.to_N b)) / 255)%Q.

(** "After preprocessing every entry of x_train and x_test equals k/255
    for some original pixel byte k." *)
Definition entries_are_byte_fractions : Prop :=
  forall (B : Backend) (x_train0 y_train0 x_test0 y_test0 : ndarray Byte.byte)
         (files0 : gmap string (Sequential B)),
    mnist_format ((x_train0, y_train0), (x_test0, y_test0)) ->
    exists k : Kernel B,
      cell1 B ((x_train0, y_train0), (x_test0, y_test0)) files0 = Some k /\
      Forall byte_fraction (data (x_train k)) /\
      Forall byte_fraction (data (x_test k)).

(** How a float32 entry [f] relates to the byte [b] it was computed
    from: it is the float32 quotient of [b] by 255, a finite number
    within 2^-25 of the fraction, between 0 and 1, and the fraction
    itself only for the bytes 0 and 255. *)
Definition nearest_unit_scale (b : Byte.byte) (f : float32) : Prop :=
  let k := Z.of_N (Byte.to_N b) in
  f = div (of_Z k) (of_Z 255) /\ (0 <= k <= 255)%Z /\
  exists q : Q,
    value f = Some q /\
    (Qabs (q - inject_Z k / 255) <= 1 # 33554432)%Q /\
    (0 <= q <= 1)%Q /\
    ((q == inject_Z k / 255)%Q <-> k = 0%Z \/ k = 255%Z).

End Part13a.

(** ** Small inputs on which the notebooks are run *)

Module Samples.

Import Keras.

(** A backend that keeps the weights it is given. *)
Definition still_backend : Backend :=
  {| Weights := unit;
     initializer := fun _ _ => tt;
     train := fun _ _ ws _ _ _ _ _ => ws;
     test_loss := fun _ _ _ _ _ => 0%Q;
     test_metric := fun _ _ _ _ _ => 1%Q;
     console := fun _ _ _ _ _ _ _ _ => ["Epoch 1/2"; "Epoch 2/2"] |}.

(** One black training image labelled 3 and one white test image
    labelled 7. *)
Definition tiny_x_train : ndarray Byte.byte :=
  {| shape := [1; 28; 28]%nat; data := repeat Byte.x00 784 |}.
Definition tiny_y_train : ndarray Byte.byte := {| shape := [1%nat]; data := [Byte.x03] |}.
Definition tiny_x_test : ndarray Byte.byte :=
  {| shape := [1; 28; 28]%nat; data := repeat Byte.xff 784 |}.
Definition tiny_y_test : ndarray Byte.byte := {| shape := [1%nat]; data := [Byte.x07] |}.

Definition tiny_mnist
    : (ndarray Byte.byte * ndarray Byte.byte) * (ndarray Byte.byte * ndarray Byte.byte) :=
  ((tiny_x_train, tiny_y_train), (tiny_x_test, tiny_y_test)).

(** One training image whose pixels are all 1. *)
Definition faint_x_train : ndarray Byte.byte :=
  {| shape := [1; 28; 28]%nat; data := repeat Byte.x01 784 |}.

(** The training label stored as a column. *)
Definition column_y_train : ndarray Byte.byte :=
  {| shape := [1; 1]%nat; data := [Byte.x03] |}.

(** The field size of the shares: 2^62. *)
Definition field62 : Z := 4611686018427387904%Z.

End Samples.

(** ** Terms of further properties *)

Module Part13aTerms.
Import Keras Part13a.

(** Data cell 1 can work with: image arrays whose buffer regroups into
    28 x 28 x 1 samples, one label below 10 per sample, the labels in a
    vector or in a column. *)
Definition loadable
    (d : (ndarray Byte.byte * ndarray Byte.byte) * (ndarray Byte.byte * ndarray Byte.byte))
    : Prop :=
  let '((x_train, y_train), (x_test, y_test)) := d in
  exists n m : nat,
    shape x_train !! 0%nat = Some n /\ size (shape x_train) = size [n; 28; 28; 1]%nat /\
    shape x_test !! 0%nat = Some m /\ size (shape x_test) = size [m; 28; 28; 1]%nat /\
    squeeze_last (shape y_train) = [n] /\ squeeze_last (shape y_test) = [m] /\
    Forall (fun b => (N.to_nat (Byte.to_N b) < 10)%nat) (data y_train) /\
    Forall (fun b => (N.to_nat (Byte.to_N b) < 10)%nat) (data y_test).

(** One image of 32 x 32 bytes. *)
Definition large_x_train : ndarray Byte.byte :=
  {| shape := [1; 32; 32]%nat; data := repeat Byte.x00 1024 |}.

(** Row [i] of a buffer read in rows of [c] entries. *)
Definition row (c i : nat) (a : ndarray Q) : list Q := take c (drop (i * c) (data a)).

(** Position of the first 1 in a row. *)
Fixpoint hot_index (r : list Q) : option nat :=
  match r with
  | [] => None
  | q :: r' => if Qeq_bool q 1 then Some 0%nat else S <$> hot_index r'
  end.

Definition total (r : list Q) : Q := fold_right Qplus 0%Q r.

End Part13aTerms.

Module Part12Terms.
Import Syft Part12 Array.

(** A buffer of zeros. *)
Definition zeros (l : list Z) : Prop := Forall (fun z => z = 0%Z) l.

(** The loss printed for a residual of zeros, at scale [s]. *)
Definition zero_loss (s : positive) : ndarray Q :=
  {| shape := [1%nat]; data := [FixedPrecision.decode s 0] |}.

(** The variables of [e], with [printed] added to the output. *)
Definition with_output {Shared : Type} (e : Env Shared) (printed : list (ndarray Q))
    : Env Shared :=
  {| data_enc := data_enc e;
     target_enc := target_enc e;
     model_enc := model_enc e;
     learning_rate_fp := learning_rate_fp e;
     stdout := stdout e ++ printed |}.

(** A model that returns the first feature, which is the target of
    cell 3, and a model with one parameter too many. *)
Definition fitted_model : ndarray Q := Tensor_2d [[1]; [0]]%Q.
Definition wide_model : ndarray Q := Tensor_2d [[0]; [0]; [0]]%Q.

(** The tensors of cell 3 as plain integers, and a direction. *)
Definition data_int : ndarray Z := Tensor_2d [[0; 0]; [0; 1]; [1; 0]; [1; 1]]%Z.
Definition target_int : ndarray Z := Tensor_2d [[0]; [0]; [1]; [1]]%Z.
Definition model_int : ndarray Z := Tensor_2d [[0]; [0]]%Z.
Definition direction_int : ndarray Z := Tensor_2d [[1]; [0]]%Z.

End Part12Terms.

(** * Properties *)

(** ** Arrays *)

Module ArrayFacts.

Lemma amap_wf {A B} (f : A -> B) (a : ndarray A) : wf a -> wf (amap f a).
Proof. unfold wf, amap; simpl. now rewrite length_map. Qed.

Lemma amap_amap {A B C} (f : A -> B) (g : B -> C) (a : ndarray A) :
  amap g (amap f a) = amap (fun x => g (f x)) a.
Proof. unfold amap; simpl. now rewrite map_map. Qed.

Lemma reshape_Some {A} (a : ndarray A) (sh : list nat) :
  size (shape a) = size sh ->
  reshape a sh = Some {| shape := sh; data := data a |}.
Proof. intros H. unfold reshape. rewrite H, Nat.eqb_refl. reflexivity. Qed.

Lemma reshape_wf {A} (a b : ndarray A) (sh : list nat) :
  wf a -> reshape a sh = Some b -> wf b /\ shape b = sh /\ data b = data a.
Proof.
  unfold reshape, wf. intros Hw.
  destruct (size (shape a) =? size sh)%nat eqn:E; [|discriminate].
  apply Nat.eqb_eq in E. intros [= <-]; simpl. repeat split. congruence.
Qed.

End ArrayFacts.

(** ** Fixed precision *)

Module FixedPrecisionFacts.

Import FixedPrecision.

Lemma round_comp (x y : Q) : (x == y)%Q -> round x = round y.
Proof.
  intros E. unfold round.
  rewrite (Qfloor_comp _ _ E).
  assert (E' : (x - inject_Z (Qfloor y) == y - inject_Z (Qfloor y))%Q) by now rewrite E.
  now rewrite (Qcompare_comp _ _ E' (1 # 2) (1 # 2) (Qeq_refl _)).
Qed.

Lemma round_inject_Z (k : Z) : round (inject_Z k) = k.
Proof.
  unfold round. rewrite Qfloor_Z.
  assert (E : (inject_Z k - inject_Z k == 0)%Q) by ring.
  now rewrite (Qcompare_comp _ _ E (1 # 2) (1 # 2) (Qeq_refl _)).
Qed.

(** [round] is within one half of its argument. *)
Lemma round_error (x : Q) : (Qabs (inject_Z (round x) - x) <= 1 # 2)%Q.
Proof.
  unfold round.
  pose proof (Qfloor_le x) as Hl. pose proof (Qlt_floor x) as Hu.
  rewrite inject_Z_plus in Hu. change (inject_Z 1) with 1%Q in Hu.
  destruct (x - inject_Z (Qfloor x) ?= 1 # 2)%Q eqn:E.
  - apply Qeq_alt in E.
    destruct (Z.even (Qfloor x)); [|rewrite inject_Z_plus; change (inject_Z 1) with 1%Q];
      apply Qabs_case; intros _; lra.
  - apply Qlt_alt in E. apply Qabs_case; intros _; lra.
  - apply Qgt_alt in E. rewrite inject_Z_plus. change (inject_Z 1) with 1%Q.
    apply Qabs_case; intros _; lra.
Qed.

Section Scale.

Variable s : positive.

Lemma scaleQ_nonzero : ~ (scaleQ s == 0)%Q.
Proof. unfold scaleQ, Qeq; simpl. lia. Qed.

(** Encoding a decoded integer gives the integer back. *)
Lemma encode_decode (n : Z) : encode s (decode s n) = n.
Proof.
  unfold encode, decode.
  rewrite (round_comp _ (inject_Z n)); [apply round_inject_Z|].
  field. apply scaleQ_nonzero.
Qed.

Lemma fix_float_precision (a : ndarray Z) :
  fix_precision s (float_precision s a) = a.
Proof.
  destruct a as [sh d]. unfold fix_precision, float_precision, amap; simpl.
  f_equal. rewrite map_map. rewrite <- (map_id d) at 2.
  apply map_ext. intros n. apply encode_decode.
Qed.

End Scale.

(** C4: decoding an encoded tensor keeps its shape and gives, entry by
    entry, [round (x * s) / s]; a value is recovered unchanged exactly
    when it is an integer over the scale, and a tensor of such values
    (the decoding of an integer tensor) is recovered as it is. *)
Theorem fix_precision_round_trip (s : positive) :
  (forall a : ndarray Q,
     shape (float_precision s (fix_precision s a)) = shape a /\
     Forall2 (fun x y => y = (inject_Z (round (x * inject_Z (Zpos s))) / inject_Z (Zpos s))%Q)
             (data a) (data (float_precision s (fix_precision s a)))) /\
  (forall x : Q,
     (decode s (encode s x) == x)%Q <->
     exists k : Z, (x == inject_Z k / inject_Z (Zpos s))%Q) /\
  (forall n : ndarray Z,
     float_precision s (fix_precision s (float_precision s n)) = float_precision s n).
Proof.
  split; [|split].
  - intros [sh d]. split; [reflexivity|].
    unfold float_precision, fix_precision, amap; simpl.
    rewrite map_map. induction d; simpl; constructor; auto.
  - intros x. split.
    + intros E. exists (encode s x). symmetry. exact E.
    + intros [k E]. unfold encode.
      rewrite (round_comp _ (decode s k * scaleQ s)%Q)
        by (unfold decode, scaleQ; now rewrite E).
      fold (encode s (decode s k)). rewrite encode_decode.
      unfold decode, scaleQ. now rewrite E.
  - intros n. now rewrite fix_float_precision.
Qed.

(** The learning rate of Part 12 at scale 1000: 0.1 is encoded as 100
    and decoded to 100/1000. *)
Lemma fix_precision_round_trip_witness :
  encode 1000 (1 # 10) = 100%Z /\ (decode 1000 (encode 1000 (1 # 10)) == 1 # 10)%Q.
Proof.
  split; [reflexivity|].
  apply (proj1 (proj2 (fix_precision_round_trip 1000))).
  exists 100%Z. reflexivity.
Defined.

End FixedPrecisionFacts.

(** ** Integer tensors and least squares *)

Module TorchFacts.

Import Torch LeastSquares.

(** Entry [(i, j)] of a buffer laid out row by row. *)
Lemma nth_grid {A} (f : nat -> nat -> A) (d : A) (n m s i j : nat) :
  (s <= i < s + n)%nat -> (j < m)%nat ->
  nth ((i - s) * m + j) (flat_map (fun i => map (f i) (seq 0 m)) (seq s n)) d = f i j.
Proof.
  revert s. induction n as [|n IH]; intros s Hi Hj; [lia|].
  simpl. destruct (decide (i = s)) as [->|Hne].
  - rewrite Nat.sub_diag. simpl. rewrite app_nth1 by now rewrite length_map, length_seq.
    rewrite (nth_indep _ d (f s 0%nat)) by now rewrite length_map, length_seq.
    rewrite (map_nth (f s)). now rewrite seq_nth.
  - rewrite app_nth2; rewrite length_map, length_seq; [|nia].
    replace ((i - s) * m + j - m)%nat with ((i - S s) * m + j)%nat by nia.
    apply IH; lia.
Qed.

Lemma sum_to_S (n : nat) (f : nat -> Z) : sum_to (S n) f = (sum_to n f + f n)%Z.
Proof.
  unfold sum_to. rewrite seq_S, map_app, fold_right_app. simpl.
  generalize (map f (seq 0 n)). intros l. induction l as [|x l IH]; simpl; lia.
Qed.

Lemma sum_to_ext (n : nat) (f g : nat -> Z) :
  (forall i, (i < n)%nat -> f i = g i) -> sum_to n f = sum_to n g.
Proof.
  induction n as [|n IH]; intros H; [reflexivity|].
  rewrite !sum_to_S, IH, H by (intros; try apply H; lia). reflexivity.
Qed.

Lemma sum_to_add (n : nat) (f g : nat -> Z) :
  sum_to n (fun i => (f i + g i)%Z) = (sum_to n f + sum_to n g)%Z.
Proof. induction n as [|n IH]; [reflexivity|]. rewrite !sum_to_S, IH. lia. Qed.

Lemma sum_to_scale (n : nat) (c : Z) (f : nat -> Z) :
  sum_to n (fun i => (c * f i)%Z) = (c * sum_to n f)%Z.
Proof.
  induction n as [|n IH]; [unfold sum_to; simpl; lia|]. rewrite !sum_to_S, IH. lia.
Qed.

Lemma sum_to_swap (n k : nat) (f : nat -> nat -> Z) :
  sum_to n (fun i => sum_to k (fun l => f i l)) =
  sum_to k (fun l => sum_to n (fun i => f i l)).
Proof.
  induction n as [|n IH].
  - change (0%Z = sum_to k (fun _ => 0%Z)).
    induction k as [|k IHk]; [reflexivity|]. rewrite sum_to_S, <- IHk. reflexivity.
  - rewrite sum_to_S, IH, <- sum_to_add. apply sum_to_ext. intros l _. now rewrite sum_to_S.
Qed.

Lemma matmul_entries (X M : ndarray Z) (n k m : nat) :
  shape X = [n; k] -> shape M = [k; m] ->
  exists C, matmul X M = Some C /\ shape C = [n; m] /\
    forall i j, (i < n)%nat -> (j < m)%nat ->
      at2 C m i j = sum_to k (fun l => (at2 X k i l * at2 M m l j)%Z).
Proof.
  intros HX HM. unfold matmul. rewrite HX, HM, Nat.eqb_refl.
  eexists. split; [reflexivity|]. split; [reflexivity|].
  intros i j Hi Hj. unfold at2 at 1. simpl.
  rewrite <- (Nat.sub_0_r i) at 1.
  rewrite (nth_grid (fun i j => dot X M k m i j)) by lia. reflexivity.
Qed.

Lemma t_entries (X : ndarray Z) (n k : nat) :
  shape X = [n; k] ->
  exists Xt, t X = Some Xt /\ shape Xt = [k; n] /\
    forall l i, (l < k)%nat -> (i < n)%nat -> at2 Xt n l i = at2 X k i l.
Proof.
  intros HX. unfold t. rewrite HX.
  eexists. split; [reflexivity|]. split; [reflexivity|].
  intros l i Hl Hi. unfold at2 at 1. simpl.
  rewrite <- (Nat.sub_0_r l) at 1.
  rewrite (nth_grid (fun j i => at2 X k i j)) by lia. reflexivity.
Qed.

(** Two columns of the same height. *)
Lemma broadcast_column_entries (f : Z -> Z -> Z) (a b : ndarray Z) (n : nat) :
  shape a = [n; 1%nat] -> shape b = [n; 1%nat] ->
  exists c, broadcast f a b = Some c /\ shape c = [n; 1%nat] /\
    forall i, (i < n)%nat -> at2 c 1 i 0 = f (at2 a 1 i 0) (at2 b 1 i 0).
Proof.
  intros Ha Hb. unfold broadcast. rewrite Ha, Hb. simpl.
  unfold bdim. rewrite Nat.eqb_refl. simpl.
  eexists. split; [reflexivity|]. split; [reflexivity|].
  intros i Hi. unfold at2 at 1. simpl.
  rewrite <- (Nat.sub_0_r i) at 1.
  rewrite (nth_grid (fun i j => f (bget a n 1 i j) (bget b n 1 i j))) by lia.
  unfold bget, at2. simpl.
  destruct (n =? 1)%nat eqn:E; [|reflexivity].
  apply Nat.eqb_eq in E. replace i with 0%nat by lia. reflexivity.
Qed.

(** A column and a one-entry tensor. *)
Lemma broadcast_scalar_shape (f : Z -> Z -> Z) (a b : ndarray Z) (k : nat) :
  shape a = [k; 1%nat] -> shape b = [1%nat] ->
  exists c, broadcast f a b = Some c /\ shape c = [k; 1%nat].
Proof.
  intros Ha Hb. unfold broadcast. rewrite Ha, Hb. simpl.
  unfold bdim. destruct (k =? 1)%nat; simpl; eexists; split; reflexivity.
Qed.

Lemma broadcast_scalar_entries (f : Z -> Z -> Z) (a b : ndarray Z) (k : nat) :
  shape a = [k; 1%nat] -> shape b = [1%nat] ->
  exists c, broadcast f a b = Some c /\ shape c = [k; 1%nat] /\
    forall i, (i < k)%nat -> at2 c 1 i 0 = f (at2 a 1 i 0) (nth 0 (data b) 0%Z).
Proof.
  intros Ha Hb. unfold broadcast. rewrite Ha, Hb. simpl.
  assert (E : bdim k 1 = Some k) by (unfold bdim; destruct (k =? 1)%nat; reflexivity).
  rewrite E. simpl.
  eexists. split; [reflexivity|]. split; [reflexivity|].
  intros i Hi. unfold at2 at 1. simpl.
  rewrite <- (Nat.sub_0_r i) at 1.
  rewrite (nth_grid (fun i j => f (bget a k 1 i j) (bget b 1 1 i j))) by lia.
  unfold bget, at2. simpl.
  destruct (k =? 1)%nat eqn:E1; [|reflexivity].
  apply Nat.eqb_eq in E1. replace i with 0%nat by lia. reflexivity.
Qed.

Lemma sum_to_abs (n : nat) (f : nat -> Z) :
  (Z.abs (sum_to n f) <= sum_to n (fun i => Z.abs (f i)))%Z.
Proof.
  induction n as [|n IH]; [unfold sum_to; simpl; lia|]. rewrite !sum_to_S. lia.
Qed.

Lemma sum_to_le (n : nat) (f g : nat -> Z) :
  (forall i, (i < n)%nat -> (f i <= g i)%Z) -> (sum_to n f <= sum_to n g)%Z.
Proof.
  induction n as [|n IH]; intros H; [unfold sum_to; simpl; lia|].
  rewrite !sum_to_S. pose proof (H n ltac:(lia)). pose proof (IH ltac:(intros; apply H; lia)). lia.
Qed.

(** X6: the update of the training loop is the gradient of (half) the
    squared error: moving the model [M] by [D] changes the squared
    error by twice the inner product of the update with [D], up to the
    second-order term. *)
Theorem update_is_least_squares_gradient (X y M D : ndarray Z) (n k : nat) :
  shape X = [n; k] -> shape y = [n; 1%nat] -> shape M = [k; 1%nat] -> shape D = [k; 1%nat] ->
  exists err err' g XD : ndarray Z,
    lsq_residual X y M = Some err /\
    (MD ← moved M D; lsq_residual X y MD) = Some err' /\
    lsq_update X y M = Some g /\
    matmul X D = Some XD /\
    squared_error n err' =
      (squared_error n err + 2 * inner k g D + squared_error n XD)%Z.
Proof.
  intros HX Hy HM HD.
  destruct (matmul_entries X M n k 1 HX HM) as (pred & Ep & Sp & Pp).
  destruct (broadcast_column_entries Z.sub pred y n Sp Hy) as (err & Ee & Se & Pe).
  destruct (broadcast_column_entries Z.add M D k HM HD) as (MD & Em & Sm & Pm).
  destruct (matmul_entries X MD n k 1 HX Sm) as (pred' & Ep' & Sp' & Pp').
  destruct (broadcast_column_entries Z.sub pred' y n Sp' Hy) as (err' & Ee' & Se' & Pe').
  destruct (t_entries X n k HX) as (Xt & Et & St & Pt).
  destruct (matmul_entries Xt err k n 1 St Se) as (g & Eu & Su & Pu).
  destruct (matmul_entries X D n k 1 HX HD) as (XD & Ex & Sx & Px).
  exists err, err', g, XD.
  unfold lsq_update, lsq_residual, moved, sub. rewrite Ep, Em, Ex. simpl. rewrite Ep'. simpl.
  rewrite Ee, Ee'. simpl. rewrite Et. simpl. rewrite Eu.
  repeat split; try reflexivity.
  assert (Herr' : forall i, (i < n)%nat ->
            at2 err' 1 i 0 = (at2 err 1 i 0 + at2 XD 1 i 0)%Z).
  { intros i Hi. rewrite Pe', Pe, Pp', Pp, Px by lia.
    rewrite (sum_to_ext k _ (fun l => (at2 X k i l * at2 M 1 l 0 +
                                       at2 X k i l * at2 D 1 l 0)%Z)).
    - rewrite sum_to_add. lia.
    - intros l Hl. rewrite Pm by lia. lia. }
  assert (Hadj : inner k g D = inner n err XD).
  { unfold inner.
    rewrite (sum_to_ext k _ (fun l => sum_to n (fun i =>
               (at2 err 1 i 0 * (at2 X k i l * at2 D 1 l 0))%Z))).
    2:{ intros l Hl. rewrite Pu by lia. rewrite Z.mul_comm, <- sum_to_scale.
        apply sum_to_ext. intros i Hi. rewrite Pt by lia. lia. }
    rewrite <- sum_to_swap. apply sum_to_ext. intros i Hi.
    rewrite Px by lia. now rewrite sum_to_scale. }
  unfold squared_error. rewrite Hadj. unfold inner.
  rewrite (sum_to_ext n _ (fun i =>
             ((at2 err 1 i 0 * at2 err 1 i 0 +
               2 * (at2 err 1 i 0 * at2 XD 1 i 0)) +
              at2 XD 1 i 0 * at2 XD 1 i 0)%Z)).
  - rewrite !sum_to_add, sum_to_scale. reflexivity.
  - intros i Hi. rewrite Herr' by lia. lia.
Qed.

End TorchFacts.

(** ** Additive sharing *)

Module AdditiveSharingFacts.

Import Syft AdditiveSharing.

Section Field.

Variable field : Z.
Hypothesis field_pos : (0 < field)%Z.

Lemma reconstruct_split (secret r : Z) :
  reconstruct field (split field secret r) = (secret mod field)%Z.
Proof.
  unfold reconstruct, split; simpl.
  rewrite <- Zplus_mod. f_equal. ring.
Qed.

Lemma remask_in_field (secret secret' r : Z) :
  in_field field (remask field secret secret' r).
Proof. unfold in_field, remask. apply Z.mod_pos_bound, field_pos. Qed.

Lemma remask_second (secret secret' r : Z) :
  (split field secret' (remask field secret secret' r)).2 = (split field secret r).2.
Proof.
  unfold split, remask; simpl.
  rewrite Zminus_mod_idemp_r. f_equal. ring.
Qed.

Lemma first_share_is_mask (secret r : Z) : in_field field r -> (split field secret r).1 = r.
Proof. intros H. unfold split; simpl. now apply Z.mod_small. Qed.

Lemma second_share_inj (secret r r' : Z) :
  in_field field r -> in_field field r' ->
  (split field secret r).2 = (split field secret r').2 -> r = r'.
Proof.
  unfold in_field, split; simpl. intros Hr Hr' E.
  assert (D : ((r' - r) mod field = 0)%Z).
  { replace (r' - r)%Z with ((secret - r) - (secret - r'))%Z by ring.
    rewrite Zminus_mod, E, Z.sub_diag. now apply Z.mod_0_l, Z.neq_sym, Z.lt_neq. }
  apply Z.mod_divide in D; [|lia].
  destruct D as [q D].
  assert (q = 0)%Z by nia. lia.
Qed.

(** The buffers of first and of second shares, for whole tensors. *)
Lemma first_shares_are_masks (secrets masks : list Z) :
  length secrets = length masks -> Forall (in_field field) masks ->
  (zip_with (split field) secrets masks).*1 = masks.
Proof.
  intros Hl Hm. revert secrets Hl.
  induction Hm as [|r masks Hr _ IH]; intros [|x secrets] Hl; simpl in *; try discriminate.
  - reflexivity.
  - change ((split field x r).1 :: (zip_with (split field) secrets masks).*1 = r :: masks).
    rewrite IH by lia. now rewrite first_share_is_mask.
Qed.

Lemma remask_second_shares (secrets secrets' masks : list Z) :
  length secrets = length masks -> length secrets' = length masks ->
  exists masks',
    length masks' = length masks /\ Forall (in_field field) masks' /\
    (zip_with (split field) secrets' masks').*2 = (zip_with (split field) secrets masks).*2.
Proof.
  revert secrets secrets'.
  induction masks as [|r masks IH]; intros [|x secrets] [|x' secrets'] Hl Hl';
    simpl in *; try discriminate.
  - exists []. repeat split. constructor.
  - destruct (IH secrets secrets') as (masks' & L & F & E); [lia..|].
    exists (remask field x x' r :: masks'). simpl. repeat split.
    + now rewrite L.
    + constructor; [apply remask_in_field|exact F].
    + change ((split field x' (remask field x x' r)).2 ::
                (zip_with (split field) secrets' masks').*2 =
              (split field x r).2 :: (zip_with (split field) secrets masks).*2).
      now rewrite E, remask_second.
Qed.

Lemma second_shares_inj (secrets masks masks' : list Z) :
  length secrets = length masks -> length masks' = length masks ->
  Forall (in_field field) masks -> Forall (in_field field) masks' ->
  (zip_with (split field) secrets masks).*2 = (zip_with (split field) secrets masks').*2 ->
  masks = masks'.
Proof.
  intros Hl Hl' Hm. revert secrets masks' Hl Hl'.
  induction Hm as [|r masks Hr _ IH]; intros [|x secrets] [|r' masks'] Hl Hl' Hm' E;
    simpl in *; try discriminate.
  - reflexivity.
  - inversion Hm' as [|? ? Hr' Hm'']; subst.
    change ((split field x r).2 :: (zip_with (split field) secrets masks).*2 =
            (split field x r').2 :: (zip_with (split field) secrets masks').*2) in E.
    injection E as E1 E2.
    f_equal.
    + now apply (second_share_inj x).
    + apply (IH secrets); auto; lia.
Qed.

(** What each worker holds after a sharing between [w1] and [w2]. *)
Lemma view_share_between (w1 w2 w : VirtualWorker) (secrets masks : list Z) :
  view w (share_between field w1 w2 secrets masks) =
  if decide (id w2 = id w) then Some (zip_with (split field) secrets masks).*2
  else if decide (id w1 = id w) then Some (zip_with (split field) secrets masks).*1
  else None.
Proof.
  unfold view, share_between.
  rewrite lookup_insert. destruct (decide (id w2 = id w)); [reflexivity|].
  rewrite lookup_insert. destruct (decide (id w1 = id w)); [reflexivity|].
  apply lookup_empty.
Qed.

End Field.

(** C5: what a single worker holds after [share] fits every other
    secret tensor equally well: for any secret tensor there is a choice
    of masks under which the worker holds exactly the same buffer, and
    for a worker that holds a share that choice is the only one, so a
    uniformly drawn mask makes the share independent of the secret.
    The two buffers together give the secret back. *)
Theorem single_share_hides_secret (field : Z) (w1 w2 w : VirtualWorker)
    (secrets secrets' masks : list Z) :
  (0 < field)%Z ->
  length secrets = length masks -> length secrets' = length masks ->
  Forall (in_field field) masks ->
  (exists masks',
     length masks' = length masks /\ Forall (in_field field) masks' /\
     view w (share_between field w1 w2 secrets' masks') =
       view w (share_between field w1 w2 secrets masks) /\
     (is_Some (view w (share_between field w1 w2 secrets masks)) ->
      forall masks'',
        length masks'' = length masks -> Forall (in_field field) masks'' ->
        view w (share_between field w1 w2 secrets' masks'') =
          view w (share_between field w1 w2 secrets masks) ->
        masks'' = masks')) /\
  (id w1 <> id w2 ->
   get_between field w1 w2 (share_between field w1 w2 secrets masks) =
     Some (map (fun x => x mod field)%Z secrets)).
Proof.
  intros Hf Hl Hl' Hm. split.
  - destruct (decide (id w2 = id w)) as [E2|N2].
    + destruct (remask_second_shares field Hf secrets secrets' masks Hl Hl')
        as (masks' & L & F & E).
      exists masks'. repeat split; auto.
      * rewrite !view_share_between. rewrite !(decide_True (P := id w2 = id w)) by exact E2. now rewrite E.
      * intros _ masks'' L'' F''. rewrite !view_share_between.
        rewrite !(decide_True (P := id w2 = id w)) by exact E2. intros [= E'']. rewrite <- E in E''.
        symmetry. apply (second_shares_inj field Hf secrets'); auto; lia.
    + exists masks. repeat split; auto.
      * rewrite !view_share_between. rewrite !(decide_False (P := id w2 = id w)) by exact N2.
        destruct (decide (id w1 = id w)); [|reflexivity].
        rewrite !first_shares_are_masks; auto.
      * intros Hs masks'' L'' F''. revert Hs. rewrite !view_share_between.
        rewrite !(decide_False (P := id w2 = id w)) by exact N2.
        destruct (decide (id w1 = id w)); [intros _|now intros [? ?]].
        rewrite !first_shares_are_masks; auto; [|lia]. now intros [= ->].
  - intros Hne. unfold get_between.
    pose proof (view_share_between field w1 w2 w1 secrets masks) as V1.
    pose proof (view_share_between field w1 w2 w2 secrets masks) as V2.
    unfold view in V1, V2. rewrite V1, V2.
    rewrite (decide_False (P := id w2 = id w1)) by (intros E; now apply Hne).
    rewrite !decide_True by reflexivity. simpl. f_equal.
    clear Hl' Hm V1 V2. revert secrets Hl.
    induction masks as [|r masks IH]; intros [|x secrets] Hl; simpl in *; try discriminate.
    + reflexivity.
    + specialize (IH secrets ltac:(lia)).
      change (reconstruct field (split field x r) ::
                zip_with (fun a b => reconstruct field (a, b))
                  (zip_with (split field) secrets masks).*1
                  (zip_with (split field) secrets masks).*2 =
              (x mod field)%Z :: map (fun x => x mod field)%Z secrets).
      now rewrite IH, reconstruct_split.
Qed.

(** alice and bob share the target of Part 12 modulo 2^62; what bob
    holds is also what he would hold of the all-zero tensor. *)
Lemma single_share_hides_secret_witness :
  exists masks' : list Z,
    length masks' = 4%nat /\
    view Part12.bob
         (share_between Samples.field62 Part12.alice Part12.bob [0; 0; 0; 0]%Z masks') =
    view Part12.bob
         (share_between Samples.field62 Part12.alice Part12.bob [0; 0; 1000; 1000]%Z
                        [5; 7; 11; 13]%Z).
Proof.
  destruct (single_share_hides_secret Samples.field62 Part12.alice Part12.bob Part12.bob
              [0; 0; 1000; 1000]%Z [0; 0; 0; 0]%Z [5; 7; 11; 13]%Z)
    as [(masks' & L & _ & V & _) _].
  - reflexivity.
  - reflexivity.
  - reflexivity.
  - repeat constructor; unfold in_field, Samples.field62; lia.
  - exists masks'. split; [exact L|exact V].
Defined.

End AdditiveSharingFacts.

(** ** Part 12 *)

Module Part12Facts.

Import Syft Part12.

Lemma for_range_S {S} (n : nat) (body : nat -> S -> option S) (st : S) :
  for_range (Datatypes.S n) body st = for_range n body st ≫= body n.
Proof. unfold for_range. now rewrite seq_S, foldl_app. Qed.

Section AnyAPI.

Context {Fixed Shared : Type} `{API : TensorAPI Fixed Shared}.

(** The model that leaves the loop body is the gradient step of the one
    that entered. *)
Lemma loop_body_model (i : nat) (e : Env Shared) :
  model_enc <$> loop_body i e =
  gradient_step (data_enc e) (target_enc e) (learning_rate_fp e) (model_enc e).
Proof.
  unfold loop_body, gradient_step, residual.
  destruct (matmul (data_enc e) (model_enc e)) as [pred|]; simpl; [|reflexivity].
  destruct (sub pred (target_enc e)) as [err|]; simpl; [|reflexivity].
  destruct (t (data_enc e)) as [Xt|]; simpl; [|reflexivity].
  destruct (matmul Xt err) as [update|]; simpl; [|reflexivity].
  destruct (mul update (learning_rate_fp e)) as [step|]; simpl; [|reflexivity].
  destruct (sub (model_enc e) step); reflexivity.
Qed.

(** The whole effect of the loop body. *)
Lemma loop_body_spec (i : nat) (e : Env Shared) :
  loop_body i e =
  (loss ← reported_loss (data_enc e) (target_enc e) (model_enc e);
   M ← gradient_step (data_enc e) (target_enc e) (learning_rate_fp e) (model_enc e);
   Some {| data_enc := data_enc e;
           target_enc := target_enc e;
           model_enc := M;
           learning_rate_fp := learning_rate_fp e;
           stdout := stdout e ++ [loss] |}).
Proof.
  unfold loop_body, reported_loss, gradient_step, residual.
  destruct (matmul (data_enc e) (model_enc e)) as [pred|]; simpl; [|reflexivity].
  destruct (sub pred (target_enc e)) as [err|]; simpl; [|reflexivity].
  destruct (t (data_enc e)) as [Xt|]; simpl; [|reflexivity].
  destruct (matmul Xt err) as [update|]; simpl; [|reflexivity].
  destruct (mul update (learning_rate_fp e)) as [step|]; simpl; [|reflexivity].
  destruct (sub (model_enc e) step); reflexivity.
Qed.

(** [n] passes through the loop are [n] gradient steps; the data, the
    target and the learning rate stay as they are. *)
Lemma for_range_loop_body (n : nat) (e : Env Shared) :
  for_range n loop_body e =
  ('(M, printed) ← descend n (data_enc e) (target_enc e) (learning_rate_fp e) (model_enc e);
   Some {| data_enc := data_enc e;
           target_enc := target_enc e;
           model_enc := M;
           learning_rate_fp := learning_rate_fp e;
           stdout := stdout e ++ printed |}).
Proof.
  induction n as [|n IH].
  - destruct e; simpl. unfold for_range; simpl. now rewrite app_nil_r.
  - rewrite for_range_S, IH. simpl.
    destruct (descend n _ _ _ _) as [[M printed]|]; simpl; [|reflexivity].
    rewrite loop_body_spec; simpl.
    destruct (reported_loss _ _ M) as [loss|]; simpl; [|reflexivity].
    destruct (gradient_step _ _ _ M) as [M''|]; simpl; [|reflexivity].
    now rewrite <- app_assoc.
Qed.

End AnyAPI.

(** The model after [n] steps, without the printed losses. *)
Lemma descend_model_S {Fixed Shared : Type} `{API : TensorAPI Fixed Shared}
    (n : nat) (X y lr M : Shared) :
  fst <$> descend (S n) X y lr M =
  (fst <$> descend n X y lr M) ≫= gradient_step X y lr.
Proof.
  simpl. destruct (descend n X y lr M) as [[M' printed]|]; simpl; [|reflexivity].
  unfold reported_loss, gradient_step.
  destruct (residual X y M') as [err|]; simpl; [|reflexivity].
  destruct (t X) as [Xt|]; simpl; [|reflexivity].
  destruct (matmul Xt err) as [g|]; simpl; [|reflexivity].
  destruct (mul g lr) as [sc|]; simpl; [|reflexivity].
  destruct (sub M' sc); reflexivity.
Qed.

Section TwoAPIs.

Context {Fixed1 Shared1 Fixed2 Shared2 : Type}.
Context (API1 : TensorAPI Fixed1 Shared1) (API2 : TensorAPI Fixed2 Shared2).
Variable h : Shared1 -> Shared2.
Hypothesis h_matmul : forall a b, h <$> matmul a b = matmul (h a) (h b).
Hypothesis h_sub : forall a b, h <$> sub a b = sub (h a) (h b).
Hypothesis h_mul : forall a b, h <$> mul a b = mul (h a) (h b).
Hypothesis h_t : forall a, h <$> t a = t (h a).

Lemma gradient_step_natural (X y lr M : Shared1) :
  h <$> gradient_step X y lr M = gradient_step (h X) (h y) (h lr) (h M).
Proof.
  unfold gradient_step, residual.
  rewrite <- h_matmul. destruct (matmul X M) as [pred|]; simpl; [|reflexivity].
  rewrite <- h_sub. destruct (sub pred y) as [err|]; simpl; [|reflexivity].
  rewrite <- h_t. destruct (t X) as [Xt|]; simpl; [|reflexivity].
  rewrite <- h_matmul. destruct (matmul Xt err) as [g|]; simpl; [|reflexivity].
  rewrite <- h_mul. destruct (mul g lr) as [sc|]; simpl; [|reflexivity].
  rewrite <- h_sub. destruct (sub M sc); reflexivity.
Qed.

Lemma descend_natural (n : nat) (X y lr M : Shared1) :
  (fun r => h r.1) <$> descend n X y lr M = fst <$> descend n (h X) (h y) (h lr) (h M).
Proof.
  induction n as [|n IH]; [reflexivity|].
  rewrite (descend_model_S n (h X)), <- IH.
  transitivity (h <$> (fst <$> descend (S n) X y lr M)).
  { destruct (descend (S n) X y lr M) as [[? ?]|]; reflexivity. }
  rewrite descend_model_S.
  destruct (descend n X y lr M) as [[M' printed]|]; simpl; [|reflexivity].
  apply gradient_step_natural.
Qed.

Lemma for_range_natural (n : nat) (e : Env Shared1) :
  (fun e' => h (model_enc e')) <$> for_range n loop_body e =
  model_enc <$> for_range n loop_body (env_map h e).
Proof.
  rewrite !for_range_loop_body. simpl.
  pose proof (descend_natural n (data_enc e) (target_enc e) (learning_rate_fp e) (model_enc e))
    as N.
  destruct (descend n (data_enc e) _ _ _) as [[M printed]|];
    destruct (descend n (h (data_enc e)) _ _ _) as [[M2 printed2]|];
    simpl in *; congruence.
Qed.

End TwoAPIs.

Section Exact.

Variable s : positive.
Variable rnd : Rounding.

Lemma same_parties_true (X a b : AdditiveSharingTensor) :
  held_like X a -> held_like X b -> same_parties a b = true.
Proof.
  intros [Ha Ha'] [Hb Hb']. unfold same_parties.
  rewrite !bool_decide_eq_true_2; [reflexivity|congruence..].
Qed.

Lemma lift2_Some (f : ndarray Z -> ndarray Z -> option (ndarray Z))
    (X a b : AdditiveSharingTensor) (c : ndarray Z) :
  held_like X a -> held_like X b -> f (child a) (child b) = Some c ->
  exists r, lift2 f a b = Some r /\ child r = c /\ held_like X r.
Proof.
  intros Ha Hb Hf. unfold lift2. rewrite (same_parties_true X a b Ha Hb), Hf. simpl.
  eexists. split; [reflexivity|]. split; [reflexivity|]. exact Ha.
Qed.

Lemma held_like_refl (X : AdditiveSharingTensor) : held_like X X.
Proof. split; reflexivity. Qed.

(** On tensors of matching shapes, held by the same parties, a gradient
    step and the loss go through and the model keeps its shape. *)
Lemma exact_gradient_step_Some (X y lr M : AdditiveSharingTensor) (n k : nat) :
  shape (child X) = [n; k] -> shape (child y) = [n; 1%nat] ->
  shape (child M) = [k; 1%nat] -> shape (child lr) = [1%nat] ->
  held_like X y -> held_like X M -> held_like X lr ->
  (exists M', @gradient_step _ _ (exact_api s rnd) X y lr M = Some M' /\
              shape (child M') = [k; 1%nat] /\ held_like X M') /\
  is_Some (@reported_loss _ _ (exact_api s rnd) X y M).
Proof.
  intros HX Hy HM Hlr Py PM Plr.
  pose proof (held_like_refl X) as PX.
  destruct (TorchFacts.matmul_entries _ _ n k 1 HX HM) as (p0 & Ep0 & Sp0 & _).
  destruct (lift2_Some (fp_matmul s rnd) X X M (truncate s rnd p0) PX PM)
    as (pred & Epred & Cpred & Ppred); [unfold fp_matmul; now rewrite Ep0|].
  assert (Spred : shape (child pred) = [n; 1%nat]) by now rewrite Cpred.
  destruct (TorchFacts.broadcast_column_entries Z.sub _ _ n Spred Hy) as (e0 & Ee0 & Se0 & _).
  destruct (lift2_Some Torch.sub X pred y e0 Ppred Py Ee0) as (err & Eerr & Cerr & Perr).
  assert (Serr : shape (child err) = [n; 1%nat]) by now rewrite Cerr.
  destruct (TorchFacts.t_entries _ n k HX) as (t0 & Et0 & St0 & _).
  assert (Et : lift1 Torch.t X =
               Some {| child := t0; owners := owners X;
                       crypto_provider := crypto_provider X |})
    by (unfold lift1; now rewrite Et0).
  set (Xt := {| child := t0 |}) in Et.
  assert (PXt : held_like X Xt) by (split; reflexivity).
  destruct (TorchFacts.matmul_entries t0 (child err) k n 1 St0 Serr) as (g0 & Eg0 & Sg0 & _).
  destruct (lift2_Some (fp_matmul s rnd) X Xt err (truncate s rnd g0) PXt Perr)
    as (update & Eupd & Cupd & Pupd); [unfold fp_matmul; simpl; now rewrite Eg0|].
  assert (Supd : shape (child update) = [k; 1%nat]) by now rewrite Cupd.
  destruct (TorchFacts.broadcast_scalar_shape Z.mul _ _ k Supd Hlr) as (s0 & Es0 & Ss0).
  destruct (lift2_Some (fp_mul s rnd) X update lr (truncate s rnd s0) Pupd Plr)
    as (step & Estep & Cstep & Pstep); [unfold fp_mul, Torch.mul; now rewrite Es0|].
  assert (Sstep : shape (child step) = [k; 1%nat]) by now rewrite Cstep.
  destruct (TorchFacts.broadcast_column_entries Z.sub _ _ k HM Sstep) as (m0 & Em0 & Sm0 & _).
  destruct (lift2_Some Torch.sub X M step m0 PM Pstep Em0) as (M' & EM' & CM' & PM').
  unfold gradient_step, reported_loss, residual. simpl.
  rewrite Epred. simpl. rewrite Eerr. simpl. rewrite Et. simpl.
  rewrite Eupd. simpl. rewrite Estep. simpl. rewrite EM'.
  split; [|eauto].
  exists M'. split; [reflexivity|]. split; [now rewrite CM'|exact PM'].
Qed.

(** The quotient by the scale is off by less than one unit. *)
Lemma idiv_error (a : Z) : (Z.abs (a - Zpos s * idiv rnd a (Zpos s)) < Zpos s)%Z.
Proof.
  destruct rnd; simpl.
  - rewrite <- Z.mod_eq by lia. pose proof (Z.mod_pos_bound a (Zpos s)). lia.
  - rewrite <- Z.rem_eq by lia. pose proof (Z.rem_bound_abs a (Zpos s)). lia.
Qed.

Lemma at2_truncate (a : ndarray Z) (c i j : nat) :
  Torch.at2 (truncate s rnd a) c i j = idiv rnd (Torch.at2 a c i j) (Zpos s).
Proof.
  unfold Torch.at2, truncate, amap; simpl.
  transitivity (nth (i * c + j) (map (fun x => idiv rnd x (Zpos s)) (Array.data a))
                    (idiv rnd 0 (Zpos s))).
  - f_equal. destruct rnd; reflexivity.
  - apply (map_nth (fun x => idiv rnd x (Zpos s))).
Qed.

(** The entries of the model after one gradient step. *)
Lemma exact_gradient_step_entries (X y lr M : AdditiveSharingTensor) (n k : nat) :
  shape (child X) = [n; k] -> shape (child y) = [n; 1%nat] ->
  shape (child M) = [k; 1%nat] -> shape (child lr) = [1%nat] ->
  held_like X y -> held_like X M -> held_like X lr ->
  exists M', @gradient_step _ _ (exact_api s rnd) X y lr M = Some M' /\
    shape (child M') = [k; 1%nat] /\ held_like X M' /\
    forall l, (l < k)%nat ->
      LeastSquares.col (child M') l =
      (LeastSquares.col (child M) l -
       fixed_step s rnd (child X) (child y) (child lr) (child M) n k l)%Z.
Proof.
  intros HX Hy HM Hlr Py PM Plr.
  pose proof (held_like_refl X) as PX.
  destruct (TorchFacts.matmul_entries _ _ n k 1 HX HM) as (p0 & Ep0 & Sp0 & Vp0).
  destruct (lift2_Some (fp_matmul s rnd) X X M (truncate s rnd p0) PX PM)
    as (pred & Epred & Cpred & Ppred); [unfold fp_matmul; now rewrite Ep0|].
  assert (Spred : shape (child pred) = [n; 1%nat]) by now rewrite Cpred.
  destruct (TorchFacts.broadcast_column_entries Z.sub _ _ n Spred Hy) as (e0 & Ee0 & Se0 & Ve0).
  destruct (lift2_Some Torch.sub X pred y e0 Ppred Py Ee0) as (err & Eerr & Cerr & Perr).
  assert (Serr : shape (child err) = [n; 1%nat]) by now rewrite Cerr.
  destruct (TorchFacts.t_entries _ n k HX) as (t0 & Et0 & St0 & Vt0).
  assert (Et : lift1 Torch.t X =
               Some {| child := t0; owners := owners X;
                       crypto_provider := crypto_provider X |})
    by (unfold lift1; now rewrite Et0).
  set (Xt := {| child := t0 |}) in Et.
  assert (PXt : held_like X Xt) by (split; reflexivity).
  destruct (TorchFacts.matmul_entries t0 (child err) k n 1 St0 Serr) as (g0 & Eg0 & Sg0 & Vg0).
  destruct (lift2_Some (fp_matmul s rnd) X Xt err (truncate s rnd g0) PXt Perr)
    as (update & Eupd & Cupd & Pupd); [unfold fp_matmul; simpl; now rewrite Eg0|].
  assert (Supd : shape (child update) = [k; 1%nat]) by now rewrite Cupd.
  destruct (TorchFacts.broadcast_scalar_entries Z.mul _ _ k Supd Hlr) as (s0 & Es0 & Ss0 & Vs0).
  destruct (lift2_Some (fp_mul s rnd) X update lr (truncate s rnd s0) Pupd Plr)
    as (step & Estep & Cstep & Pstep); [unfold fp_mul, Torch.mul; now rewrite Es0|].
  assert (Sstep : shape (child step) = [k; 1%nat]) by now rewrite Cstep.
  destruct (TorchFacts.broadcast_column_entries Z.sub _ _ k HM Sstep) as (m0 & Em0 & Sm0 & Vm0).
  destruct (lift2_Some Torch.sub X M step m0 PM Pstep Em0) as (M' & EM' & CM' & PM').
  unfold gradient_step, residual. simpl.
  rewrite Epred. simpl. rewrite Eerr. simpl. rewrite Et. simpl.
  rewrite Eupd. simpl. rewrite Estep. simpl. rewrite EM'.
  exists M'. split; [reflexivity|]. split; [now rewrite CM'|]. split; [exact PM'|].
  intros l Hl. unfold LeastSquares.col. rewrite CM', Vm0 by lia. f_equal.
  rewrite Cstep, at2_truncate, Vs0 by lia. rewrite Cupd, at2_truncate, Vg0 by lia.
  unfold fixed_step, fixed_update. do 3 f_equal.
  apply TorchFacts.sum_to_ext. intros i Hi. rewrite Vt0 by lia. f_equal.
  rewrite Cerr, Ve0 by lia. rewrite Cpred, at2_truncate, Vp0 by lia. reflexivity.
Qed.

(** The step in fixed precision against the learning rate times the
    gradient: three quotients, each off by less than one unit. *)
Lemma fixed_step_error (X y lr M : ndarray Z) (n k l : nat) :
  (Z.abs (nth 0 (Array.data lr) 0 * LeastSquares.raw_gradient (Zpos s) X y M n k l -
          Zpos s ^ 3 * fixed_step s rnd X y lr M n k l)
   <= Z.abs (nth 0 (Array.data lr) 0) * Zpos s * LeastSquares.column_weight X n k l +
      Z.abs (nth 0 (Array.data lr) 0) * Zpos s ^ 2 + Zpos s ^ 3)%Z.
Proof.
  set (lr0 := nth 0 (Array.data lr) 0%Z). set (sc := Zpos s).
  unfold fixed_step. fold lr0. fold sc.
  set (G := fixed_update s rnd X y M n k l).
  set (T := idiv rnd (G * lr0) sc).
  set (U := Torch.sum_to n (fun i => (Torch.at2 X k i l * fixed_residual s rnd X y M k i)%Z)).
  set (W := LeastSquares.column_weight X n k l).
  set (D := Torch.sum_to n (fun i =>
              (Torch.at2 X k i l *
               (LeastSquares.product_row X M k i -
                sc * idiv rnd (LeastSquares.product_row X M k i) sc))%Z)).
  assert (E1 : LeastSquares.raw_gradient sc X y M n k l = (sc * U + D)%Z).
  { unfold LeastSquares.raw_gradient, U, D.
    rewrite <- TorchFacts.sum_to_scale, <- TorchFacts.sum_to_add.
    apply TorchFacts.sum_to_ext. intros i _.
    unfold LeastSquares.raw_residual, fixed_residual. fold sc. ring. }
  assert (B1 : (Z.abs D <= sc * W)%Z).
  { unfold D, W, LeastSquares.column_weight. rewrite <- TorchFacts.sum_to_scale.
    eapply Z.le_trans; [apply TorchFacts.sum_to_abs|].
    apply TorchFacts.sum_to_le. intros i _. rewrite Z.abs_mul.
    pose proof (idiv_error (LeastSquares.product_row X M k i)) as B. fold sc in B.
    pose proof (Z.abs_nonneg (Torch.at2 X k i l)). nia. }
  assert (B2 : (Z.abs (U - sc * G) < sc)%Z) by apply idiv_error.
  assert (B3 : (Z.abs (G * lr0 - sc * T) < sc)%Z) by apply idiv_error.
  assert (P : (0 < sc)%Z) by (unfold sc; lia).
  rewrite E1.
  replace (lr0 * (sc * U + D) - sc ^ 3 * T)%Z
    with (lr0 * D + lr0 * sc * (U - sc * G) + sc ^ 2 * (G * lr0 - sc * T))%Z by ring.
  assert (A1 : (Z.abs (lr0 * D) <= Z.abs lr0 * sc * W)%Z).
  { rewrite Z.abs_mul. pose proof (Z.abs_nonneg lr0). nia. }
  assert (A2 : (Z.abs (lr0 * sc * (U - sc * G)) <= Z.abs lr0 * sc ^ 2)%Z).
  { rewrite !Z.abs_mul. rewrite (Z.abs_eq sc) by lia. pose proof (Z.abs_nonneg lr0). nia. }
  assert (A3 : (Z.abs (sc ^ 2 * (G * lr0 - sc * T)) <= sc ^ 3)%Z).
  { rewrite Z.abs_mul. rewrite (Z.abs_eq (sc ^ 2)) by nia. nia. }
  lia.
Qed.

Lemma exact_descend_Some (X y lr M : AdditiveSharingTensor) (n k steps : nat) :
  shape (child X) = [n; k] -> shape (child y) = [n; 1%nat] ->
  shape (child M) = [k; 1%nat] -> shape (child lr) = [1%nat] ->
  held_like X y -> held_like X M -> held_like X lr ->
  exists M' printed,
    @descend _ _ (exact_api s rnd) steps X y lr M = Some (M', printed) /\
    shape (child M') = [k; 1%nat] /\ held_like X M' /\ length printed = steps.
Proof.
  intros HX Hy HM Hlr Py PM Plr.
  induction steps as [|steps (M' & printed & E & SM' & PM' & L)].
  - exists M, []. repeat split; auto. apply PM. apply PM.
  - destruct (exact_gradient_step_Some X y lr M' n k HX Hy SM' Hlr Py PM' Plr)
      as [(M'' & E'' & SM'' & PM'') [loss El]].
    exists M'', (printed ++ [loss]). simpl. rewrite E. simpl. rewrite El. simpl.
    rewrite E''. simpl. repeat split; auto; try apply PM''.
    rewrite length_app. simpl. lia.
Qed.

End Exact.

Lemma truncate_scale_1 (rnd : Rounding) (a : ndarray Z) : truncate 1 rnd a = a.
Proof.
  destruct a as [sh d]. unfold truncate, amap; simpl. f_equal.
  rewrite <- (map_id d) at 2. apply map_ext. intros x.
  destruct rnd; simpl; [apply Z.div_1_r|apply Z.quot_1_r].
Qed.

(** Moving the model [M] by [D] changes the squared error by twice the
    inner product of [Xᵀ (X M - y)] with [D], up to the second-order
    term: [Xᵀ (X M - y)] is the gradient of half the squared error. *)
Lemma raw_error_expansion (sc : Z) (X y M D M' : ndarray Z) (n k : nat) :
  (forall j, (j < k)%nat ->
     LeastSquares.col M' j = (LeastSquares.col M j + LeastSquares.col D j)%Z) ->
  LeastSquares.raw_squared_error sc X y M' n k =
  (LeastSquares.raw_squared_error sc X y M n k +
   2 * Torch.sum_to k (fun l => LeastSquares.raw_gradient sc X y M n k l * LeastSquares.col D l) +
   Torch.sum_to n (fun i => LeastSquares.product_row X D k i ^ 2))%Z.
Proof.
  intros HM.
  assert (HR : forall i, LeastSquares.raw_residual sc X y M' k i =
                         (LeastSquares.raw_residual sc X y M k i +
                          LeastSquares.product_row X D k i)%Z).
  { intros i. unfold LeastSquares.raw_residual, LeastSquares.product_row.
    rewrite (TorchFacts.sum_to_ext k _
               (fun j => (Torch.at2 X k i j * LeastSquares.col M j +
                          Torch.at2 X k i j * LeastSquares.col D j)%Z)).
    - rewrite TorchFacts.sum_to_add. lia.
    - intros j Hj. rewrite HM by lia. lia. }
  assert (Hadj : Torch.sum_to k (fun l => (LeastSquares.raw_gradient sc X y M n k l *
                                           LeastSquares.col D l)%Z) =
                 Torch.sum_to n (fun i => (LeastSquares.raw_residual sc X y M k i *
                                           LeastSquares.product_row X D k i)%Z)).
  { rewrite (TorchFacts.sum_to_ext k _ (fun l => Torch.sum_to n (fun i =>
               (LeastSquares.raw_residual sc X y M k i *
                (Torch.at2 X k i l * LeastSquares.col D l))%Z))).
    2:{ intros l _. unfold LeastSquares.raw_gradient.
        rewrite Z.mul_comm, <- TorchFacts.sum_to_scale.
        apply TorchFacts.sum_to_ext. intros i _. lia. }
    rewrite <- TorchFacts.sum_to_swap. apply TorchFacts.sum_to_ext. intros i _.
    unfold LeastSquares.product_row at 1. now rewrite TorchFacts.sum_to_scale. }
  rewrite Hadj. unfold LeastSquares.raw_squared_error.
  rewrite (TorchFacts.sum_to_ext n _ (fun i =>
             ((LeastSquares.raw_residual sc X y M k i ^ 2 +
               2 * (LeastSquares.raw_residual sc X y M k i * LeastSquares.product_row X D k i)) +
              LeastSquares.product_row X D k i ^ 2)%Z)).
  - rewrite !TorchFacts.sum_to_add, TorchFacts.sum_to_scale. reflexivity.
  - intros i _. rewrite HR. ring.
Qed.

(** At scale 1 nothing is cut off, and the update the loop body computes
    on shared tensors is the least-squares update of the values they
    stand for. *)
Lemma update_at_scale_1 (rnd : Rounding) (X y M : AdditiveSharingTensor) :
  held_like X y -> held_like X M ->
  child <$> (err ← @residual _ _ (exact_api 1 rnd) X y M;
             Xt ← @t _ _ (exact_api 1 rnd) X;
             @matmul _ _ (exact_api 1 rnd) Xt err) =
  LeastSquares.lsq_update (child X) (child y) (child M).
Proof.
  intros Py PM. pose proof (held_like_refl X) as PX.
  unfold residual, LeastSquares.lsq_update, LeastSquares.lsq_residual. simpl.
  unfold lift2 at 3. rewrite (same_parties_true X X M PX PM).
  unfold fp_matmul at 2.
  destruct (Torch.matmul (child X) (child M)) as [p|]; simpl; [|reflexivity].
  rewrite truncate_scale_1.
  unfold lift2 at 2.
  rewrite (same_parties_true X _ y) by (try exact Py; split; reflexivity). simpl.
  destruct (Torch.sub p (child y)) as [e|]; simpl; [|reflexivity].
  unfold lift1. destruct (Torch.t (child X)) as [Xt|]; simpl; [|reflexivity].
  unfold lift2.
  rewrite (same_parties_true X) by (split; reflexivity). simpl.
  unfold fp_matmul.
  destruct (Torch.matmul Xt e) as [g|]; simpl; [|reflexivity].
  now rewrite truncate_scale_1.
Qed.

(** C1: the loop of cell 6 is twenty gradient-descent steps for least
    squares on the shared model.  (1) Against any implementation of the
    tensor API the loop equals twenty steps, each printing the loss of
    the model it starts from, with data, target and learning rate left
    as they are; (2) a step is the chain [X.matmul(M)], minus the
    target, [X.t().matmul(err)], times the learning rate, subtracted
    from [M].  In exact fixed precision: (3) on tensors of matching
    shapes held by the same parties the loop runs to its end, and
    (4) those of cell 5 are such tensors; (5) one pass moves entry [l]
    of the model by the fixed-precision quotient of
    [lr * Σ_i X_il (Σ_j X_ij M_j - y_i)]; (6) that amount is the
    learning rate times entry [l] of [Xᵀ (X M - y)], up to the three
    roundings; (7) [Xᵀ (X M - y)] is the gradient of half the squared
    error [Σ_i (Σ_j X_ij M_j - y_i)²]: moving [M] by [D] changes the
    squared error by twice the inner product with [D], up to the
    second-order term; (8) on the notebook's own tensors, with three
    decimals, the first pass moves the model from (0, 0) to
    (0.2, 0.1), the learning rate 0.1 times minus the gradient
    (-2, -1). *)
Theorem cell6_is_gradient_descent :
  (forall (Fixed Shared : Type) (API : TensorAPI Fixed Shared) (e : Env Shared),
     cell6 e =
     ('(M, printed) ← descend 20 (data_enc e) (target_enc e) (learning_rate_fp e)
                        (model_enc e);
      Some {| data_enc := data_enc e;
              target_enc := target_enc e;
              model_enc := M;
              learning_rate_fp := learning_rate_fp e;
              stdout := stdout e ++ printed |})) /\
  (forall (Fixed Shared : Type) (API : TensorAPI Fixed Shared) (X y lr M : Shared),
     gradient_step X y lr M =
     (pred ← matmul X M;
      err ← sub pred y;
      Xt ← t X;
      update ← matmul Xt err;
      step ← mul update lr;
      sub M step)) /\
  (forall (s : positive) (rnd : Rounding) (n k : nat) (e : Env AdditiveSharingTensor),
     regression_shapes n k e ->
     exists e', @cell6 _ _ (exact_api s rnd) e = Some e' /\
                length (stdout e') = (length (stdout e) + 20)%nat /\
                regression_shapes n k e') /\
  (forall (s : positive) (rnd : Rounding),
     regression_shapes 4 2 (@cell5 _ _ (exact_api s rnd) data target model learning_rate)) /\
  (forall (s : positive) (rnd : Rounding) (n k i : nat) (e : Env AdditiveSharingTensor),
     regression_shapes n k e ->
     exists e', @loop_body _ _ (exact_api s rnd) i e = Some e' /\
                regression_shapes n k e' /\
                data_enc e' = data_enc e /\ target_enc e' = target_enc e /\
                learning_rate_fp e' = learning_rate_fp e /\
                forall l, (l < k)%nat ->
                  LeastSquares.col (child (model_enc e')) l =
                  (LeastSquares.col (child (model_enc e)) l -
                   fixed_step s rnd (child (data_enc e)) (child (target_enc e))
                              (child (learning_rate_fp e)) (child (model_enc e)) n k l)%Z) /\
  (forall (s : positive) (rnd : Rounding) (X y lr M : ndarray Z) (n k l : nat),
     (Z.abs (nth 0 (Array.data lr) 0 * LeastSquares.raw_gradient (Zpos s) X y M n k l -
             Zpos s ^ 3 * fixed_step s rnd X y lr M n k l)
      <= Z.abs (nth 0 (Array.data lr) 0) * Zpos s * LeastSquares.column_weight X n k l +
         Z.abs (nth 0 (Array.data lr) 0) * Zpos s ^ 2 + Zpos s ^ 3)%Z) /\
  (forall (sc : Z) (X y M D M' : ndarray Z) (n k : nat),
     (forall j, (j < k)%nat ->
        LeastSquares.col M' j = (LeastSquares.col M j + LeastSquares.col D j)%Z) ->
     LeastSquares.raw_squared_error sc X y M' n k =
     (LeastSquares.raw_squared_error sc X y M n k +
      2 * Torch.sum_to k (fun l => LeastSquares.raw_gradient sc X y M n k l *
                                   LeastSquares.col D l) +
      Torch.sum_to n (fun i => LeastSquares.product_row X D k i ^ 2))%Z) /\
  (forall rnd : Rounding,
     let e := @cell5 _ _ (exact_api 1000 rnd) data target model learning_rate in
     Array.data (child (model_enc e)) = [0; 0]%Z /\
     Array.data (child (learning_rate_fp e)) = [100]%Z /\
     map (LeastSquares.raw_gradient 1000 (child (data_enc e)) (child (target_enc e))
                                    (child (model_enc e)) 4 2) [0; 1]%nat =
       [-2000000000; -1000000000]%Z /\
     exists e', @loop_body _ _ (exact_api 1000 rnd) 0 e = Some e' /\
                Array.data (child (model_enc e')) = [200; 100]%Z).
Proof.
  split; [|split; [|split; [|split; [|split; [|split; [|split]]]]]].
  - intros. apply for_range_loop_body.
  - intros. unfold gradient_step, residual.
    destruct (matmul X M) as [pred|]; simpl; [|reflexivity].
    destruct (sub pred y); reflexivity.
  - intros s rnd n k e (HX & Hy & HM & Hlr & Py & PM & Plr).
    unfold cell6. rewrite for_range_loop_body.
    destruct (exact_descend_Some s rnd _ _ _ _ n k 20 HX Hy HM Hlr Py PM Plr)
      as (M' & printed & E & SM' & PM' & L).
    rewrite E. simpl. eexists. split; [reflexivity|]. simpl.
    split; [rewrite length_app; lia|]. repeat split; auto; first [apply Py | apply PM' | apply Plr].
  - intros s rnd. repeat split.
  - intros s rnd n k i e (HX & Hy & HM & Hlr & Py & PM & Plr).
    destruct (exact_gradient_step_entries s rnd _ _ _ _ n k HX Hy HM Hlr Py PM Plr)
      as (M' & E & SM' & PM' & V).
    destruct (exact_gradient_step_Some s rnd _ _ _ _ n k HX Hy HM Hlr Py PM Plr)
      as [_ [loss El]].
    rewrite loop_body_spec, El. cbn [mbind option_bind]. rewrite E. cbn [mbind option_bind].
    eexists. split; [reflexivity|]. cbn [data_enc target_enc model_enc learning_rate_fp].
    split; [|repeat split; exact V].
    repeat split; auto; first [apply Py | apply PM' | apply Plr].
  - intros. apply fixed_step_error.
  - intros. now apply raw_error_expansion.
  - intros rnd. destruct rnd; vm_compute; repeat split; eexists; split; reflexivity.
Qed.

(** C2, as stated, fails: one pass through the loop body on the
    notebook's tensors replaces the model [[0], [0]] by
    [[0.2], [0.1]], computed by the notebook's own two lines. *)
Lemma notebook_updates_the_model : ~ no_update_arithmetic.
Proof.
  intros H.
  pose (api := exact_api 1000 Floor).
  pose (e := @cell5 _ _ api data target model learning_rate).
  assert (E : exists e', @loop_body _ _ api 0 e = Some e' /\
                         Array.data (child (model_enc e')) = [200; 100]%Z).
  { vm_compute. eexists. split; reflexivity. }
  destruct E as (e' & E1 & E2).
  apply (H _ _ api) in E1. rewrite E1 in E2. vm_compute in E2. discriminate.
Qed.

(** C2, amended: the notebook's code does hold the gradient computation
    and the parameter update, and it holds them as a composition of the
    library's tensor calls and nothing else: the model that leaves the
    loop body is [M - (X.t() @ (X @ M - y)) * lr] in the library's
    operations, and a change of library that respects [matmul], [t],
    [-] and [*] carries the trained model along. *)
Theorem update_composes_library_calls :
  (forall (Fixed Shared : Type) (API : TensorAPI Fixed Shared) (i : nat) (e : Env Shared),
     model_enc <$> loop_body i e =
     gradient_step (data_enc e) (target_enc e) (learning_rate_fp e) (model_enc e)) /\
  (forall (Fixed1 Shared1 Fixed2 Shared2 : Type)
          (API1 : TensorAPI Fixed1 Shared1) (API2 : TensorAPI Fixed2 Shared2)
          (h : Shared1 -> Shared2),
     (forall a b, h <$> matmul a b = matmul (h a) (h b)) ->
     (forall a b, h <$> sub a b = sub (h a) (h b)) ->
     (forall a b, h <$> mul a b = mul (h a) (h b)) ->
     (forall a, h <$> t a = t (h a)) ->
     forall e : Env Shared1,
       (fun e' => h (model_enc e')) <$> cell6 e = model_enc <$> cell6 (env_map h e)).
Proof.
  split.
  - intros. apply loop_body_model.
  - intros. now apply for_range_natural.
Qed.

(** The identity between the exact API and itself, on the notebook's
    tensors. *)
Lemma update_composes_library_calls_witness :
  let e := @cell5 _ _ (exact_api 1000 Floor) data target model learning_rate in
  (fun e' => model_enc e') <$> @cell6 _ _ (exact_api 1000 Floor) e =
  model_enc <$> @cell6 _ _ (exact_api 1000 Floor) (env_map (fun a => a) e).
Proof.
  intros e.
  apply (proj2 update_composes_library_calls _ _ _ _
           (exact_api 1000 Floor) (exact_api 1000 Floor) (fun a => a));
    intros; match goal with |- _ <$> ?x = _ => destruct x; reflexivity end.
Defined.

(** C3: each of the four [share] calls of cell 5 hands shares to alice
    and bob and names james as crypto provider, so the parties of every
    shared tensor are exactly the three workers the notebook created. *)
Theorem shared_among_the_three_workers (s : positive) (rnd : Rounding)
    (data target model : ndarray Q) (learning_rate : Q) :
  let e := @cell5 _ _ (exact_api s rnd) data target model learning_rate in
  Forall (fun x => owners x = [alice; bob] /\ crypto_provider x = james /\
                   parties x = list_to_set (id <$> workers) /\
                   parties x = {[ "alice"; "bob"; "james" ]})
         [data_enc e; target_enc e; model_enc e; learning_rate_fp e] /\
  base.size (list_to_set (id <$> workers) : gset string) = 3%nat.
Proof.
  assert (P : forall x, owners x = [alice; bob] -> crypto_provider x = james ->
              owners x = [alice; bob] /\ crypto_provider x = james /\
              parties x = list_to_set (id <$> workers) /\
              parties x = {[ "alice"; "bob"; "james" ]}).
  { intros x Ho Hc. unfold parties. rewrite Ho, Hc. repeat split; simpl; set_solver. }
  split.
  - repeat constructor; apply P; reflexivity.
  - rewrite size_list_to_set; [reflexivity|].
    apply (bool_decide_unpack _). vm_compute. exact I.
Qed.

(** The result of cell 7 in exact arithmetic is within 0.005 of the one
    recorded in the notebook. *)
Lemma final_model_near_recorded (rnd : Rounding) :
  exists (e : Env AdditiveSharingTensor) (final : ndarray Q),
    @run_cells _ _ (exact_api 1000 rnd) = Some (e, final) /\
    shape final = shape recorded_model /\
    Forall2 (fun recorded exact => (Qabs (recorded - exact) <= 5 # 1000)%Q)
            (Array.data recorded_model) (Array.data final).
Proof.
  destruct rnd; eexists _, _; (split; [vm_compute; reflexivity|]);
    (split; [reflexivity|]);
    repeat (constructor; [vm_compute; discriminate|]); constructor.
Qed.

(** The decrease depends on the scale: with a single decimal the loss
    stalls at 0.6 from the sixth pass on. *)
Lemma losses_stall_at_scale_10 :
  exists (e : Env AdditiveSharingTensor) (final : ndarray Q),
    @run_cells _ _ (exact_api 10 Floor) = Some (e, final) /\
    Qred <$> losses e =
      ([2; 8 # 5; 6 # 5; 1; 4 # 5] ++ repeat (3 # 5) 15)%Q /\
    ~ strictly_decreasing (losses e).
Proof.
  eexists _, _. split; [vm_compute; reflexivity|]. split; [vm_compute; reflexivity|].
  vm_compute. intros (_ & _ & _ & _ & _ & H & _). discriminate H.
Qed.

(** C10: in exact fixed-precision arithmetic at scale 1000, whichever
    way quotients are rounded, the twenty printed losses start at 2 and
    each one is below the one before.  The losses recorded in the
    notebook, which went through the sharing protocol, do the same and
    stay within 0.01 of the exact ones. *)
Theorem losses_strictly_decrease (rnd : Rounding) :
  exists (e : Env AdditiveSharingTensor) (final : ndarray Q) (first : Q) (rest : list Q),
    @run_cells _ _ (exact_api 1000 rnd) = Some (e, final) /\
    length (stdout e) = 20%nat /\
    Forall (fun printed => shape printed = [1%nat]) (stdout e) /\
    length (losses e) = 20%nat /\
    losses e = first :: rest /\ (first == 2)%Q /\
    strictly_decreasing (losses e) /\
    strictly_decreasing recorded_losses /\
    Forall2 (fun recorded exact => (Qabs (recorded - exact) <= 1 # 100)%Q)
            recorded_losses (losses e).
Proof.
  assert (R : strictly_decreasing recorded_losses) by (vm_compute; repeat split; reflexivity).
  destruct rnd.
  - eexists _, _, _, _. split; [vm_compute; reflexivity|].
    split; [reflexivity|]. split; [repeat constructor|]. split; [reflexivity|].
    split; [vm_compute; reflexivity|]. split; [reflexivity|].
    split; [vm_compute; repeat split; reflexivity|]. split; [exact R|].
    repeat (constructor; [vm_compute; discriminate|]). constructor.
  - eexists _, _, _, _. split; [vm_compute; reflexivity|].
    split; [reflexivity|]. split; [repeat constructor|]. split; [reflexivity|].
    split; [vm_compute; reflexivity|]. split; [reflexivity|].
    split; [vm_compute; repeat split; reflexivity|]. split; [exact R|].
    repeat (constructor; [vm_compute; discriminate|]). constructor.
Qed.

End Part12Facts.

(** ** Part 13a *)

Module Part13aFacts.

Import Keras Part13a ArrayFacts.

#[local] Arguments assemble : simpl never.
#[local] Arguments to_categorical : simpl never.
#[local] Arguments reshape : simpl never.
#[local] Arguments train : simpl never.

Lemma to_categorical_Some (y : ndarray Byte.byte) (classes : nat) :
  Forall (fun b => (N.to_nat (Byte.to_N b) < classes)%nat) (data y) ->
  to_categorical y classes =
  Some {| shape := squeeze_last (shape y) ++ [classes];
          data := flat_map (fun b => one_hot classes (N.to_nat (Byte.to_N b))) (data y) |}.
Proof.
  intros H. unfold to_categorical.
  replace (forallb _ (data y)) with true; [reflexivity|].
  symmetry. apply forallb_forall. intros b Hb.
  rewrite Forall_forall in H. apply Nat.ltb_lt, H. now apply list_elem_of_In.
Qed.

Lemma accepts_intro {B : Backend} {A C : Type} (m : Sequential B)
    (x : ndarray A) (y : ndarray C) (n : nat) (inp out : list nat) :
  built m = Some (inp, out) -> shape x = n :: inp -> shape y = n :: out ->
  accepts m x y = true.
Proof.
  intros Hb Hx Hy. unfold accepts. rewrite Hb, Hx, Hy.
  now rewrite !bool_decide_eq_true_2.
Qed.

Lemma fit_Some {B : Backend} (m : Sequential B) (c : Compiled)
    (x : ndarray Float32.float32) (y : ndarray Q) (vx : ndarray Float32.float32) (vy : ndarray Q)
    (batch epochs : nat) :
  compiled m = Some c -> accepts m x y = true -> accepts m vx vy = true ->
  fit x y batch epochs (Some (vx, vy)) m =
  Some {| layers := layers m;
          built := built m;
          weights := train B (layers m) c (weights m) x y batch epochs (Some (vx, vy));
          compiled := compiled m |}.
Proof. intros Hc Hx Hv. unfold fit. rewrite Hc; simpl. now rewrite Hx, Hv. Qed.

Lemma evaluate_Some {B : Backend} (m : Sequential B) (c : Compiled)
    (x : ndarray Float32.float32) (y : ndarray Q) :
  compiled m = Some c -> accepts m x y = true ->
  evaluate x y m =
  Some (test_loss B (layers m) c (weights m) x y ::
        map (fun name => test_metric B name (layers m) (weights m) x y) (metrics c)).
Proof. intros Hc Hx. unfold evaluate. rewrite Hc; simpl. now rewrite Hx. Qed.

(** The eleven [add] calls go through; the model takes 28 x 28 x 1
    samples and returns 10 values. *)
Lemma assemble_Some (B : Backend) :
  exists m : Sequential B,
    assemble B = Some m /\
    layers m = [Conv2D 10 (3, 3) (Some [28; 28; 1]); AveragePooling2D (2, 2);
                Activation "relu";
                Conv2D 32 (3, 3) None; AveragePooling2D (2, 2); Activation "relu";
                Conv2D 64 (3, 3) None; AveragePooling2D (2, 2); Activation "relu";
                Flatten; Dense 10 (Some "softmax")]%nat /\
    built m = Some ([28; 28; 1], [10])%nat /\
    compiled m = None /\
    length (weights m) = 11%nat.
Proof. eexists. split; [vm_compute; reflexivity|]. simpl. repeat split. Qed.

Section Run.

Variable B : Backend.
Variables x_train0 y_train0 x_test0 y_test0 : ndarray Byte.byte.
Variable files0 : gmap string (Sequential B).
Hypothesis format : mnist_format ((x_train0, y_train0), (x_test0, y_test0)).

(** Cell 1 runs to its end, and this is what it leaves. *)
Lemma cell1_Some :
  exists (k : Kernel B) (m0 : Sequential B) (n m : nat),
    cell1 B ((x_train0, y_train0), (x_test0, y_test0)) files0 = Some k /\
    assemble B = Some m0 /\
    shape x_train0 = [n; 28; 28]%nat /\ shape x_test0 = [m; 28; 28]%nat /\
    x_train k = {| shape := [n; 28; 28; 1]%nat; data := map unit_scale (data x_train0) |} /\
    x_test k = {| shape := [m; 28; 28; 1]%nat; data := map unit_scale (data x_test0) |} /\
    to_categorical y_train0 10 = Some (y_train k) /\
    to_categorical y_test0 10 = Some (y_test k) /\
    shape (y_train k) = [n; 10]%nat /\ shape (y_test k) = [m; 10]%nat /\
    model k = {| layers := layers m0;
                 built := built m0;
                 weights := train B (layers m0) configuration (weights m0)
                                  (x_train k) (y_train k) 128 2
                                  (Some (x_test k, y_test k));
                 compiled := Some configuration |} /\
    files k = files0.
Proof.
  destruct format as (n & m & Hx & Hy & Hx' & Hy' & Hl & Hl').
  destruct (assemble_Some B) as (m0 & Ha & Hlay & Hb & Hc & _).
  unfold cell1.
  rewrite Ha.
  rewrite (to_categorical_Some y_train0) by exact Hl.
  rewrite (to_categorical_Some y_test0) by exact Hl'.
  rewrite Hx, Hx', Hy, Hy'.
  cbn [lookup list_lookup mbind option_bind].
  rewrite (reshape_Some x_train0) by (rewrite Hx; reflexivity).
  rewrite (reshape_Some x_test0) by (rewrite Hx'; reflexivity).
  cbn [lookup list_lookup mbind option_bind shape astype_float32 itruediv amap app squeeze_last].
  set (X := itruediv (astype_float32 (NDArray [n; img_rows; img_cols; 1%nat] (data x_train0))) 255).
  set (X' := itruediv (astype_float32 (NDArray [m; img_rows; img_cols; 1%nat] (data x_test0))) 255).
  set (Y := @NDArray Q [n; num_classes] _).
  set (Y' := @NDArray Q [m; num_classes] _).
  set (mc := compile _ m0).
  assert (Hmc : compiled mc = Some configuration) by reflexivity.
  assert (HX : accepts mc X Y = true) by (now apply (accepts_intro mc X Y n [28; 28; 1] [10])%nat).
  assert (HX' : accepts mc X' Y' = true)
    by (now apply (accepts_intro mc X' Y' m [28; 28; 1] [10])%nat).
  rewrite (fit_Some mc configuration X Y X' Y' _ _ Hmc HX HX').
  cbn [mbind option_bind].
  set (mt := {| layers := layers mc |}).
  assert (HX'' : accepts mt X' Y' = true)
    by (now apply (accepts_intro mt X' Y' m [28; 28; 1] [10])%nat).
  rewrite (evaluate_Some mt configuration X' Y' Hmc HX'').
  cbn [mbind option_bind lookup list_lookup map metrics configuration].
  eexists _, m0, n, m. split; [reflexivity|].
  cbn [x_train x_test y_train y_test model files].
  repeat split; auto.
  - unfold X, itruediv, astype_float32, amap; simpl. f_equal. now rewrite map_map.
  - unfold X', itruediv, astype_float32, amap; simpl. f_equal. now rewrite map_map.
  - rewrite (to_categorical_Some y_train0) by exact Hl. now rewrite Hy.
  - rewrite (to_categorical_Some y_test0) by exact Hl'. now rewrite Hy'.
Qed.

End Run.

(** The float32 quotient of each of the 256 bytes by 255, one by one. *)
Lemma unit_scale_nearest (b : Byte.byte) : nearest_unit_scale b (unit_scale b).
Proof.
  unfold nearest_unit_scale. split; [reflexivity|].
  split; [pose proof (Byte.to_N_bounded b); lia|].
  destruct b; (eexists; split; [vm_compute; reflexivity|]);
    (split; [vm_compute; intros H; discriminate H|]);
    (split; [split; vm_compute; intros H; discriminate H|]);
    (split; [intros H; first [left; reflexivity | right; reflexivity
                              | vm_compute in H; discriminate H]
            | intros [H|H]; first [reflexivity | vm_compute in H; discriminate H]]).
Qed.

(** The float32 quotient of 1 by 255 is no fraction of 255. *)
Lemma unit_scale_1_off : ~ byte_fraction (unit_scale Byte.x01).
Proof.
  intros (b & q & Hq & E). vm_compute in Hq. injection Hq as <-.
  destruct b; vm_compute in E; discriminate E.
Qed.

(** The sample data is in MNIST format. *)
Ltac tiny_mnist_format :=
  exists 1%nat, 1%nat; repeat split; try reflexivity; repeat constructor; simpl; lia.

(** C6: on MNIST data cell 1 runs to its end and leaves a model made of
    three Conv2D + AveragePooling2D + ReLU blocks, Flatten and a
    10-unit softmax Dense layer, compiled with the categorical
    cross-entropy, whose weights are those of one [fit] on the scaled
    training images and one-hot training labels, for 2 epochs with
    batches of 128, validated on the test images and labels. *)
Theorem trains_convolutional_classifier (B : Backend)
    (x_train0 y_train0 x_test0 y_test0 : ndarray Byte.byte)
    (files0 : gmap string (Sequential B)) :
  mnist_format ((x_train0, y_train0), (x_test0, y_test0)) ->
  exists (k : Kernel B) (m0 : Sequential B),
    cell1 B ((x_train0, y_train0), (x_test0, y_test0)) files0 = Some k /\
    assemble B = Some m0 /\
    layers (model k) = layers m0 /\
    convolutional_classifier 10 (layers (model k)) /\
    compiled (model k) = Some configuration /\
    loss configuration = "categorical_crossentropy" /\
    weights (model k) =
      train B (layers m0) configuration (weights m0)
            (x_train k) (y_train k) 128 2 (Some (x_test k, y_test k)) /\
    data (x_train k) = map unit_scale (data x_train0) /\
    data (x_test k) = map unit_scale (data x_test0) /\
    to_categorical y_train0 10 = Some (y_train k) /\
    to_categorical y_test0 10 = Some (y_test k).
Proof.
  intros format.
  destruct (cell1_Some B _ _ _ _ files0 format)
    as (k & m0 & n & m & Hk & Ha & _ & _ & Hx & Hx' & Hy & Hy' & _ & _ & Hm & _).
  destruct (assemble_Some B) as (m0' & Ha' & Hlay & _).
  rewrite Ha in Ha'. injection Ha' as <-.
  exists k, m0. split; [exact Hk|]. split; [exact Ha|].
  rewrite Hm, Hx, Hx'. simpl. repeat split; auto.
  rewrite Hlay.
  exists [Conv2D 10 (3, 3) (Some [28; 28; 1]%nat); AveragePooling2D (2, 2); Activation "relu"],
         [Conv2D 32 (3, 3) None; AveragePooling2D (2, 2); Activation "relu"],
         [Conv2D 64 (3, 3) None; AveragePooling2D (2, 2); Activation "relu"].
  repeat split; unfold conv_block; eauto 10.
Qed.

Lemma trains_convolutional_classifier_witness :
  exists k : Kernel Samples.still_backend,
    cell1 Samples.still_backend Samples.tiny_mnist ∅ = Some k /\
    convolutional_classifier 10 (layers (model k)).
Proof.
  destruct (trains_convolutional_classifier Samples.still_backend
              Samples.tiny_x_train Samples.tiny_y_train Samples.tiny_x_test Samples.tiny_y_test ∅)
    as (k & m0 & Hk & _ & _ & Hc & _); [tiny_mnist_format|].
  exists k. split; [exact Hk|exact Hc].
Defined.

(** C7: once cell 1 has trained the model, cell 2 writes it to
    'short-conv-mnist.h5' and nothing else: the model in memory, layers
    and weights, is the trained one, the file holds that model, every
    other file and every variable of the notebook is as before. *)
Theorem save_leaves_model_unchanged (B : Backend)
    (x_train0 y_train0 x_test0 y_test0 : ndarray Byte.byte)
    (files0 : gmap string (Sequential B)) :
  mnist_format ((x_train0, y_train0), (x_test0, y_test0)) ->
  exists (k1 k2 : Kernel B) (m0 : Sequential B),
    cell1 B ((x_train0, y_train0), (x_test0, y_test0)) files0 = Some k1 /\
    run_notebook B ((x_train0, y_train0), (x_test0, y_test0)) files0 = Some k2 /\
    k2 = cell2 B k1 /\
    assemble B = Some m0 /\
    weights (model k1) =
      train B (layers m0) configuration (weights m0)
            (x_train k1) (y_train k1) 128 2 (Some (x_test k1, y_test k1)) /\
    model k2 = model k1 /\
    layers (model k2) = layers (model k1) /\
    weights (model k2) = weights (model k1) /\
    files k2 !! "short-conv-mnist.h5" = Some (model k1) /\
    (forall path : string, path <> "short-conv-mnist.h5" -> files k2 !! path = files0 !! path) /\
    x_train k2 = x_train k1 /\ y_train k2 = y_train k1 /\
    x_test k2 = x_test k1 /\ y_test k2 = y_test k1 /\
    score k2 = score k1 /\ stdout k2 = stdout k1.
Proof.
  intros format.
  destruct (cell1_Some B _ _ _ _ files0 format)
    as (k & m0 & n & m & Hk & Ha & _ & _ & _ & _ & _ & _ & _ & _ & Hm & Hf).
  exists k, (cell2 B k), m0. unfold run_notebook. rewrite Hk.
  repeat split; auto.
  - now rewrite Hm.
  - unfold cell2, save; simpl. apply lookup_insert_eq.
  - intros path Hp. unfold cell2, save; simpl. rewrite <- Hf.
    now apply lookup_insert_ne.
Qed.

Lemma save_leaves_model_unchanged_witness :
  exists k1 k2 : Kernel Samples.still_backend,
    cell1 Samples.still_backend Samples.tiny_mnist ∅ = Some k1 /\
    run_notebook Samples.still_backend Samples.tiny_mnist ∅ = Some k2 /\
    model k2 = model k1 /\
    files k2 !! "short-conv-mnist.h5" = Some (model k1).
Proof.
  destruct (save_leaves_model_unchanged Samples.still_backend
              Samples.tiny_x_train Samples.tiny_y_train Samples.tiny_x_test Samples.tiny_y_test ∅)
    as (k1 & k2 & m0 & H1 & H2 & _ & _ & _ & Hm & _ & _ & Hf & _); [tiny_mnist_format|].
  exists k1, k2. repeat split; assumption.
Defined.

(** C8, as the specification words it, fails: on a training image whose
    pixels are all 1 every entry of [x_train] is the float32 quotient
    of 1 by 255, which is 8421505 / 2^31 and the fraction [k / 255] of
    no byte [k]. *)
Lemma pixel_1_is_no_fraction_of_255 : ~ entries_are_byte_fractions.
Proof.
  intros H.
  destruct (H Samples.still_backend Samples.faint_x_train Samples.tiny_y_train
              Samples.tiny_x_test Samples.tiny_y_test ∅) as (k & Hk & Ht & _);
    [tiny_mnist_format|].
  destruct (cell1_Some Samples.still_backend Samples.faint_x_train Samples.tiny_y_train
              Samples.tiny_x_test Samples.tiny_y_test ∅)
    as (k' & m0 & n & m & Hk' & _ & _ & _ & Hx & _); [tiny_mnist_format|].
  assert (E : k' = k) by congruence. subst k'.
  rewrite Hx in Ht. apply Forall_inv in Ht. now apply unit_scale_1_off in Ht.
Qed.

(** C8, amended: after the preprocessing of cell 1 every entry of
    [x_train] and of [x_test] is the float32 quotient by 255 of the
    byte [k], between 0 and 255, that stood at the same place in the
    loaded array: a finite number within 2^-25 of [k / 255], equal to it
    only for [k = 0] and [k = 255], that lies between 0 and 1. *)
Theorem pixels_on_unit_scale (B : Backend)
    (x_train0 y_train0 x_test0 y_test0 : ndarray Byte.byte)
    (files0 : gmap string (Sequential B)) :
  mnist_format ((x_train0, y_train0), (x_test0, y_test0)) ->
  exists k : Kernel B,
    cell1 B ((x_train0, y_train0), (x_test0, y_test0)) files0 = Some k /\
    Forall2 nearest_unit_scale (data x_train0) (data (x_train k)) /\
    Forall2 nearest_unit_scale (data x_test0) (data (x_test k)).
Proof.
  intros format.
  destruct (cell1_Some B _ _ _ _ files0 format)
    as (k & m0 & n & m & Hk & _ & _ & _ & Hx & Hx' & _).
  assert (P : forall l : list Byte.byte, Forall2 nearest_unit_scale l (map unit_scale l)).
  { induction l as [|b l IH]; simpl; constructor; [apply unit_scale_nearest|exact IH]. }
  exists k. split; [exact Hk|]. rewrite Hx, Hx'. simpl. split; apply P.
Qed.

Lemma pixels_on_unit_scale_witness :
  exists k : Kernel Samples.still_backend,
    cell1 Samples.still_backend Samples.tiny_mnist ∅ = Some k /\
    Forall (fun f => exists q, Float32.value f = Some q /\ (0 <= q <= 1)%Q) (data (x_test k)).
Proof.
  destruct (pixels_on_unit_scale Samples.still_backend
              Samples.tiny_x_train Samples.tiny_y_train Samples.tiny_x_test Samples.tiny_y_test ∅)
    as (k & Hk & _ & Ht); [tiny_mnist_format|].
  exists k. split; [exact Hk|].
  clear Hk. induction Ht as [|b f l l' (_ & _ & q & Hq & _ & Hb & _) _ IH]; constructor;
    [exists q; split; assumption|assumption].
Defined.

(** C9: the layer stack takes 28 x 28 x 1 samples without a shape
    error: every [add] goes through, the sides shrink as
    26, 13, 11, 5, 3, 1, [Flatten] yields 64 features, the model
    returns 10 values, and it accepts every batch of 28 x 28 x 1 samples
    with 10-entry targets. *)
Theorem layer_stack_is_shape_compatible (B : Backend) :
  exists m : Sequential B,
    assemble B = Some m /\
    length (layers m) = 11%nat /\
    built m = Some ([28; 28; 1], [10])%nat /\
    shape_trace [28; 28; 1]%nat (layers m) =
      Some [[26; 26; 10]; [13; 13; 10]; [13; 13; 10];
            [11; 11; 32]; [5; 5; 32]; [5; 5; 32];
            [3; 3; 64]; [1; 1; 64]; [1; 1; 64];
            [64]; [10]]%nat /\
    (forall (A C : Type) (n : nat) (x : ndarray A) (y : ndarray C),
       shape x = [n; 28; 28; 1]%nat -> shape y = [n; 10]%nat -> accepts m x y = true).
Proof.
  destruct (assemble_Some B) as (m & Ha & Hlay & Hb & _).
  exists m. rewrite Hlay. repeat split; auto.
  intros A C n x y Hx Hy. now apply (accepts_intro m x y n [28; 28; 1] [10])%nat.
Qed.

End Part13aFacts.

(** ** Part 13a, further properties *)

Module Part13aMore.
Import Keras Part13a Part13aTerms ArrayFacts Part13aFacts.

#[local] Arguments assemble : simpl never.
#[local] Arguments to_categorical : simpl never.
#[local] Arguments reshape : simpl never.
#[local] Arguments train : simpl never.

Lemma to_categorical_Some_inv (y : ndarray Byte.byte) (classes : nat) (c : ndarray Q) :
  to_categorical y classes = Some c ->
  Forall (fun b => (N.to_nat (Byte.to_N b) < classes)%nat) (data y) /\
  c = {| shape := squeeze_last (shape y) ++ [classes];
         data := flat_map (fun b => one_hot classes (N.to_nat (Byte.to_N b))) (data y) |}.
Proof.
  unfold to_categorical.
  destruct (forallb _ (data y)) eqn:E; [|discriminate].
  intros [= <-]. split; [|reflexivity].
  rewrite forallb_forall in E. apply Forall_forall. intros b Hb.
  apply Nat.ltb_lt, E. now apply list_elem_of_In.
Qed.

(** Dropping a last axis of extent 1 keeps the number of entries. *)
Lemma size_squeeze_last (sh : list nat) : size (squeeze_last sh) = size sh.
Proof.
  destruct sh as [|a [|b sh]]; [reflexivity..|].
  unfold squeeze_last.
  destruct (List.last (a :: b :: sh) 0 =? 1)%nat eqn:E; [|reflexivity].
  apply Nat.eqb_eq in E.
  rewrite (app_removelast_last 0%nat (l := a :: b :: sh)) at 2 by discriminate.
  rewrite E. generalize (List.removelast (a :: b :: sh)). intros l.
  induction l as [|c l IH]; simpl; [reflexivity|]. simpl in IH. rewrite <- IH. reflexivity.
Qed.

Lemma reshape_Some_inv {A} (a b : ndarray A) (sh : list nat) :
  reshape a sh = Some b -> size (shape a) = size sh /\ b = {| shape := sh; data := data a |}.
Proof.
  unfold reshape. destruct (size (shape a) =? size sh)%nat eqn:E; [|discriminate].
  intros [= <-]. split; [now apply Nat.eqb_eq|reflexivity].
Qed.

Lemma accepts_inv {B : Backend} {A C : Type} (m : Sequential B)
    (x : ndarray A) (y : ndarray C) (inp out : list nat) :
  built m = Some (inp, out) -> accepts m x y = true ->
  exists n, shape x = n :: inp /\ shape y = n :: out.
Proof.
  intros Hb. unfold accepts. rewrite Hb.
  destruct (shape x) as [|n sx]; [discriminate|].
  destruct (shape y) as [|n' sy]; [discriminate|].
  intros H. apply andb_true_iff in H as [H H3]. apply andb_true_iff in H as [H1 H2].
  apply bool_decide_eq_true in H1, H2, H3. subst. eauto.
Qed.

Section Run.

Variable B : Backend.
Variables x_train0 y_train0 x_test0 y_test0 : ndarray Byte.byte.
Variable files0 : gmap string (Sequential B).

(** Everything cell 1 leaves, read back from a run that reached its end. *)
Lemma cell1_inv (k : Kernel B) :
  cell1 B ((x_train0, y_train0), (x_test0, y_test0)) files0 = Some k ->
  exists (m0 : Sequential B) (n m : nat),
    assemble B = Some m0 /\
    shape x_train0 !! 0%nat = Some n /\ size (shape x_train0) = size [n; 28; 28; 1]%nat /\
    shape x_test0 !! 0%nat = Some m /\ size (shape x_test0) = size [m; 28; 28; 1]%nat /\
    squeeze_last (shape y_train0) = [n] /\ squeeze_last (shape y_test0) = [m] /\
    Forall (fun b => (N.to_nat (Byte.to_N b) < 10)%nat) (data y_train0) /\
    Forall (fun b => (N.to_nat (Byte.to_N b) < 10)%nat) (data y_test0) /\
    x_train k = {| shape := [n; 28; 28; 1]%nat; data := map unit_scale (data x_train0) |} /\
    x_test k = {| shape := [m; 28; 28; 1]%nat; data := map unit_scale (data x_test0) |} /\
    y_train k = {| shape := [n; 10]%nat;
                   data := flat_map (fun b => one_hot 10 (N.to_nat (Byte.to_N b)))
                                    (data y_train0) |} /\
    y_test k = {| shape := [m; 10]%nat;
                  data := flat_map (fun b => one_hot 10 (N.to_nat (Byte.to_N b)))
                                   (data y_test0) |} /\
    model k = {| layers := layers m0;
                 built := built m0;
                 weights := train B (layers m0) configuration (weights m0)
                                  (x_train k) (y_train k) 128 2
                                  (Some (x_test k, y_test k));
                 compiled := Some configuration |} /\
    score k = [test_loss B (layers (model k)) configuration (weights (model k))
                         (x_test k) (y_test k);
               test_metric B "accuracy" (layers (model k)) (weights (model k))
                           (x_test k) (y_test k)] /\
    stdout k = [[PStr "x_train shape:"; PShape [n; 28; 28; 1]%nat];
                [PInt n; PStr "train samples"];
                [PInt m; PStr "test samples"]] ++
               map (fun line => [PStr line])
                   (console B (layers m0) configuration (weights m0)
                            (x_train k) (y_train k) 128 2 (Some (x_test k, y_test k))) ++
               [[PStr "Test loss:"; PFloat (test_loss B (layers (model k)) configuration
                                              (weights (model k)) (x_test k) (y_test k))];
                [PStr "Test accuracy:";
                 PFloat (test_metric B "accuracy" (layers (model k)) (weights (model k))
                           (x_test k) (y_test k))]] /\
    files k = files0.
Proof.
  destruct (assemble_Some B) as (m0 & Ha & Hlay & Hb & Hc & _).
  unfold cell1. rewrite Ha.
  destruct (shape x_train0 !! 0%nat) as [n|] eqn:En; [|discriminate].
  cbn [mbind option_bind].
  destruct (reshape x_train0 _) as [xr|] eqn:Er; [|discriminate].
  apply reshape_Some_inv in Er as [Sr ->].
  cbn [mbind option_bind].
  destruct (shape x_test0 !! 0%nat) as [m|] eqn:Em; [|discriminate].
  cbn [mbind option_bind].
  destruct (reshape x_test0 _) as [xr'|] eqn:Er'; [|discriminate].
  apply reshape_Some_inv in Er' as [Sr' ->].
  cbn [mbind option_bind lookup list_lookup shape astype_float32 itruediv amap].
  destruct (to_categorical y_train0 num_classes) as [Y|] eqn:Ey; [|discriminate].
  apply to_categorical_Some_inv in Ey as [Fy ->].
  cbn [mbind option_bind].
  destruct (to_categorical y_test0 num_classes) as [Y'|] eqn:Ey'; [|discriminate].
  apply to_categorical_Some_inv in Ey' as [Fy' ->].
  cbn [mbind option_bind].
  set (X := itruediv (astype_float32 (NDArray [n; img_rows; img_cols; 1%nat] (data x_train0))) 255).
  set (X' := itruediv (astype_float32 (NDArray [m; img_rows; img_cols; 1%nat] (data x_test0))) 255).
  set (Y := @NDArray Q (squeeze_last (shape y_train0) ++ [num_classes]) _).
  set (Y' := @NDArray Q (squeeze_last (shape y_test0) ++ [num_classes]) _).
  set (mc := compile _ m0).
  assert (Hmc : compiled mc = Some configuration) by reflexivity.
  assert (Hbc : built mc = Some ([28; 28; 1], [10])%nat) by exact Hb.
  unfold library_lines. change (compiled mc) with (Some configuration).
  change (layers mc) with (layers m0). change (weights mc) with (weights m0).
  unfold fit. change (compiled mc) with (Some configuration). cbn [mbind option_bind].
  destruct (accepts mc X Y && accepts mc X' Y') eqn:EA; [|discriminate].
  apply andb_true_iff in EA as [EA EA'].
  cbn [mbind option_bind].
  set (mt := {| layers := layers mc |}).
  unfold evaluate. change (compiled mt) with (Some configuration).
  cbn [mbind option_bind]. change (accepts mt X' Y') with (accepts mc X' Y').
  rewrite EA'. cbn [mbind option_bind lookup list_lookup map metrics configuration].
  intros [= <-]. cbn [x_train x_test y_train y_test model files score stdout].
  destruct (accepts_inv mc X Y _ _ Hbc EA) as (n1 & HX & HY).
  destruct (accepts_inv mc X' Y' _ _ Hbc EA') as (m1 & HX' & HY').
  injection HX as <-. injection HX' as <-.
  assert (Sy : squeeze_last (shape y_train0) = [n]).
  { change (squeeze_last (shape y_train0) ++ [num_classes] = [n] ++ [10%nat]) in HY.
    now apply app_inj_tail in HY as [? _]. }
  assert (Sy' : squeeze_last (shape y_test0) = [m]).
  { change (squeeze_last (shape y_test0) ++ [num_classes] = [m] ++ [10%nat]) in HY'.
    now apply app_inj_tail in HY' as [? _]. }
  exists m0, n, m.
  assert (EX : X = {| shape := [n; 28; 28; 1]%nat; data := map unit_scale (data x_train0) |})
    by (unfold X, itruediv, astype_float32, amap; simpl; f_equal; now rewrite map_map).
  assert (EX' : X' = {| shape := [m; 28; 28; 1]%nat; data := map unit_scale (data x_test0) |})
    by (unfold X', itruediv, astype_float32, amap; simpl; f_equal; now rewrite map_map).
  assert (EY : Y = {| shape := [n; 10]%nat;
                      data := flat_map (fun b => one_hot 10 (N.to_nat (Byte.to_N b)))
                                       (data y_train0) |})
    by (unfold Y; now rewrite Sy).
  assert (EY' : Y' = {| shape := [m; 10]%nat;
                        data := flat_map (fun b => one_hot 10 (N.to_nat (Byte.to_N b)))
                                         (data y_test0) |})
    by (unfold Y'; now rewrite Sy').
  repeat split; auto.
Qed.

(** On loadable data cell 1 runs to its end. *)
Lemma cell1_loadable :
  loadable ((x_train0, y_train0), (x_test0, y_test0)) ->
  is_Some (cell1 B ((x_train0, y_train0), (x_test0, y_test0)) files0).
Proof.
  intros (n & m & En & Sn & Em & Sm & Hy & Hy' & Hl & Hl').
  destruct (assemble_Some B) as (m0 & Ha & Hlay & Hb & Hc & _).
  unfold cell1. rewrite Ha.
  rewrite (to_categorical_Some y_train0) by exact Hl.
  rewrite (to_categorical_Some y_test0) by exact Hl'.
  rewrite En, Em, Hy, Hy'.
  cbn [mbind option_bind].
  rewrite (reshape_Some x_train0) by exact Sn.
  rewrite (reshape_Some x_test0) by exact Sm.
  cbn [lookup list_lookup mbind option_bind shape astype_float32 itruediv amap app].
  set (X := itruediv (astype_float32 (NDArray [n; img_rows; img_cols; 1%nat] (data x_train0))) 255).
  set (X' := itruediv (astype_float32 (NDArray [m; img_rows; img_cols; 1%nat] (data x_test0))) 255).
  set (Y := @NDArray Q [n; num_classes] _).
  set (Y' := @NDArray Q [m; num_classes] _).
  set (mc := compile _ m0).
  assert (Hmc : compiled mc = Some configuration) by reflexivity.
  assert (HX : accepts mc X Y = true) by (now apply (accepts_intro mc X Y n [28; 28; 1] [10])%nat).
  assert (HX' : accepts mc X' Y' = true)
    by (now apply (accepts_intro mc X' Y' m [28; 28; 1] [10])%nat).
  rewrite (fit_Some mc configuration X Y X' Y' _ _ Hmc HX HX').
  cbn [mbind option_bind].
  set (mt := {| layers := layers mc |}).
  assert (HX'' : accepts mt X' Y' = true)
    by (now apply (accepts_intro mt X' Y' m [28; 28; 1] [10])%nat).
  rewrite (evaluate_Some mt configuration X' Y' Hmc HX'').
  cbn [mbind option_bind lookup list_lookup map metrics configuration].
  eauto.
Qed.

End Run.

(** Rows of a buffer made of chunks of equal length. *)
Lemma row_flat_map {A} (f : A -> list Q) (c : nat) (l : list A) (i : nat) (x : A) :
  (forall y, length (f y) = c) -> l !! i = Some x ->
  take c (drop (i * c) (flat_map f l)) = f x.
Proof.
  intros Hc. revert i. induction l as [|y l IH]; intros [|i] H; try discriminate.
  - injection H as ->. change (take c (drop 0 (f x ++ flat_map f l)) = f x).
    rewrite drop_0. apply take_app_length'. first [apply Hc|symmetry; apply Hc].
  - change (take c (drop (c + i * c) (f y ++ flat_map f l)) = f x).
    rewrite drop_app_add' by (symmetry; apply Hc). now apply IH.
Qed.

Lemma length_one_hot (c j : nat) : length (one_hot c j) = c.
Proof. unfold one_hot. now rewrite length_map, length_seq. Qed.

Lemma hot_index_one_hot (c j : nat) : (j < c)%nat -> hot_index (one_hot c j) = Some j.
Proof.
  unfold one_hot. intros Hj.
  enough (G : forall s, (s <= j < s + c)%nat ->
            hot_index (map (fun j' => if (j' =? j)%nat then 1%Q else 0%Q) (seq s c)) =
            Some (j - s)%nat).
  { rewrite G by lia. f_equal. lia. }
  clear Hj. induction c as [|c IH]; intros s Hs; [lia|].
  simpl. destruct (s =? j)%nat eqn:E.
  - apply Nat.eqb_eq in E. subst. simpl. now rewrite Nat.sub_diag.
  - apply Nat.eqb_neq in E. simpl. rewrite IH by lia. simpl. f_equal. lia.
Qed.

Lemma total_one_hot (c j : nat) : (j < c)%nat -> (total (one_hot c j) == 1)%Q.
Proof.
  unfold one_hot. intros Hj.
  enough (G : forall s,
            (total (map (fun j' => if (j' =? j)%nat then 1%Q else 0%Q) (seq s c)) ==
             if decide (s <= j < s + c)%nat then 1 else 0)%Q).
  { rewrite G. destruct (decide (0 <= j < 0 + c)%nat); [reflexivity|lia]. }
  clear Hj. induction c as [|c IH]; intros s.
  - simpl. destruct (decide _); [lia|reflexivity].
  - simpl. rewrite IH. destruct (s =? j)%nat eqn:E.
    + apply Nat.eqb_eq in E. subst.
      destruct (decide (S j <= j < _)%nat); [lia|].
      destruct (decide (j <= j < _)%nat); [|lia]. ring.
    + apply Nat.eqb_neq in E.
      destruct (decide (S s <= j < S s + c)%nat), (decide (s <= j < s + S c)%nat);
        try lia; ring.
Qed.

Lemma length_flat_map_one_hot (c : nat) (l : list Byte.byte) :
  length (flat_map (fun b => one_hot c (N.to_nat (Byte.to_N b))) l) = (length l * c)%nat.
Proof.
  induction l as [|b l IH]; [reflexivity|].
  simpl. rewrite length_app, length_one_hot, IH. lia.
Qed.

(** X2: when cell 1 runs to its end, the output holds the three lines
    of its first [print] calls (the shape (n, 28, 28, 1) of [x_train],
    the numbers of training and of test samples), then the lines the
    library writes while the model is built and fitted, then the two
    lines of its last [print] calls, which show the two entries of
    [score]: the loss and the accuracy of the trained model on the test
    set. *)
Theorem cell1_output (B : Backend)
    (x_train0 y_train0 x_test0 y_test0 : ndarray Byte.byte)
    (files0 : gmap string (Sequential B)) (k : Kernel B) :
  cell1 B ((x_train0, y_train0), (x_test0, y_test0)) files0 = Some k ->
  exists (n m : nat) (test_loss test_accuracy : Q) (m0 : Sequential B) (progress : list string),
    shape x_train0 !! 0%nat = Some n /\ shape x_test0 !! 0%nat = Some m /\
    score k = [test_loss; test_accuracy] /\
    test_loss = Keras.test_loss B (layers (model k)) configuration (weights (model k))
                                (x_test k) (y_test k) /\
    test_accuracy = test_metric B "accuracy" (layers (model k)) (weights (model k))
                                (x_test k) (y_test k) /\
    assemble B = Some m0 /\
    progress = console B (layers m0) configuration (weights m0)
                       (x_train k) (y_train k) 128 2 (Some (x_test k, y_test k)) /\
    stdout k = [[PStr "x_train shape:"; PShape [n; 28; 28; 1]%nat];
                [PInt n; PStr "train samples"];
                [PInt m; PStr "test samples"]] ++
               map (fun line => [PStr line]) progress ++
               [[PStr "Test loss:"; PFloat test_loss];
                [PStr "Test accuracy:"; PFloat test_accuracy]].
Proof.
  intros H. destruct (cell1_inv B _ _ _ _ files0 k H)
    as (m0 & n & m & Ha & En & _ & Em & _ & _ & _ & _ & _ & _ & _ & _ & _ & _ & Hs & Ho & _).
  exists n, m. eexists _, _, m0, _. repeat split; eauto.
Qed.

(** X3: after cell 1 row [i] of [y_train] (and of [y_test]) is the
    one-hot row of the [i]-th loaded label: ten entries that add up to
    1, with the first 1 at the label's position, so the label can be
    read back. *)
Theorem labels_are_one_hot (B : Backend)
    (x_train0 y_train0 x_test0 y_test0 : ndarray Byte.byte)
    (files0 : gmap string (Sequential B)) (k : Kernel B) :
  cell1 B ((x_train0, y_train0), (x_test0, y_test0)) files0 = Some k ->
  (forall (i : nat) (b : Byte.byte), data y_train0 !! i = Some b ->
     row 10 i (y_train k) = one_hot 10 (N.to_nat (Byte.to_N b)) /\
     hot_index (row 10 i (y_train k)) = Some (N.to_nat (Byte.to_N b)) /\
     (total (row 10 i (y_train k)) == 1)%Q) /\
  (forall (i : nat) (b : Byte.byte), data y_test0 !! i = Some b ->
     row 10 i (y_test k) = one_hot 10 (N.to_nat (Byte.to_N b)) /\
     hot_index (row 10 i (y_test k)) = Some (N.to_nat (Byte.to_N b)) /\
     (total (row 10 i (y_test k)) == 1)%Q).
Proof.
  intros H. destruct (cell1_inv B _ _ _ _ files0 k H)
    as (m0 & n & m & _ & _ & _ & _ & _ & _ & _ & Fy & Fy' & _ & _ & Ey & Ey' & _).
  assert (G : forall (l : list Byte.byte) (sh : list nat) (i : nat) (b : Byte.byte),
            Forall (fun b => (N.to_nat (Byte.to_N b) < 10)%nat) l -> l !! i = Some b ->
            let r := row 10 i {| shape := sh;
                                 data := flat_map (fun b => one_hot 10 (N.to_nat (Byte.to_N b))) l |} in
            r = one_hot 10 (N.to_nat (Byte.to_N b)) /\
            hot_index r = Some (N.to_nat (Byte.to_N b)) /\ (total r == 1)%Q).
  { intros l sh i b F Hb r.
    assert (Er : r = one_hot 10 (N.to_nat (Byte.to_N b))).
    { unfold r, row. cbn [data].
      apply (row_flat_map (fun b => one_hot 10 (N.to_nat (Byte.to_N b))) 10 l i b);
        [intros; apply length_one_hot|exact Hb]. }
    assert (Lb : (N.to_nat (Byte.to_N b) < 10)%nat).
    { rewrite Forall_forall in F. apply F. eapply list_elem_of_lookup_2. exact Hb. }
    rewrite Er. split; [reflexivity|]. split; [now apply hot_index_one_hot|now apply total_one_hot]. }
  rewrite Ey, Ey'. split; intros i b Hb; now apply G.
Qed.

(** X1: cell 1 ends with an error on data that is not loadable: an
    image array without a first axis or whose buffer does not regroup
    into samples of 28 x 28 x 1 entries, a label array that is neither
    a vector nor a column with one label per sample, or a label of 10
    or more. *)
Theorem cell1_fails_unless_loadable (B : Backend)
    (x_train0 y_train0 x_test0 y_test0 : ndarray Byte.byte)
    (files0 : gmap string (Sequential B)) :
  ~ loadable ((x_train0, y_train0), (x_test0, y_test0)) ->
  cell1 B ((x_train0, y_train0), (x_test0, y_test0)) files0 = None.
Proof.
  intros N.
  destruct (cell1 B ((x_train0, y_train0), (x_test0, y_test0)) files0) as [k|] eqn:H;
    [|reflexivity].
  destruct N. destruct (cell1_inv B _ _ _ _ files0 k H)
    as (m0 & n & m & _ & En & Sn & Em & Sm & Hy & Hy' & Fy & Fy' & _).
  exists n, m. repeat split; assumption.
Qed.

(** Images of 32 x 32 bytes are refused. *)
Lemma cell1_fails_unless_loadable_witness :
  cell1 Samples.still_backend
        ((large_x_train, Samples.tiny_y_train), (Samples.tiny_x_test, Samples.tiny_y_test)) ∅
  = None.
Proof.
  apply cell1_fails_unless_loadable.
  intros (n & m & En & Sn & _). injection En as <-. vm_compute in Sn. discriminate Sn.
Defined.

(** Labels stored as a column are taken as they are in a vector. *)
Lemma cell1_takes_column_labels :
  loadable ((Samples.tiny_x_train, Samples.column_y_train),
            (Samples.tiny_x_test, Samples.tiny_y_test)) /\
  exists k : Kernel Samples.still_backend,
    cell1 Samples.still_backend
          ((Samples.tiny_x_train, Samples.column_y_train),
           (Samples.tiny_x_test, Samples.tiny_y_test)) ∅ = Some k /\
    shape (y_train k) = [1; 10]%nat.
Proof.
  assert (L : loadable ((Samples.tiny_x_train, Samples.column_y_train),
                        (Samples.tiny_x_test, Samples.tiny_y_test))).
  { exists 1%nat, 1%nat. repeat split; try reflexivity; repeat constructor; simpl; lia. }
  split; [exact L|].
  destruct (cell1_loadable Samples.still_backend _ _ _ _ ∅ L) as [k Hk].
  exists k. split; [exact Hk|].
  destruct (cell1_inv Samples.still_backend _ _ _ _ ∅ k Hk)
    as (m0 & n & m & _ & En & _ & _ & _ & _ & _ & _ & _ & _ & _ & Ey & _).
  injection En as <-. now rewrite Ey.
Qed.

(** X4: if the loaded arrays hold as many entries as their shapes ask
    for, so do the four arrays cell 1 hands to [fit]: 784 entries per
    image and 10 per label. *)
Theorem cell1_keeps_arrays_well_formed (B : Backend)
    (x_train0 y_train0 x_test0 y_test0 : ndarray Byte.byte)
    (files0 : gmap string (Sequential B)) (k : Kernel B) :
  cell1 B ((x_train0, y_train0), (x_test0, y_test0)) files0 = Some k ->
  wf x_train0 -> wf y_train0 -> wf x_test0 -> wf y_test0 ->
  wf (x_train k) /\ wf (y_train k) /\ wf (x_test k) /\ wf (y_test k) /\
  (exists n, length (data (x_train k)) = (n * 784)%nat /\
             length (data (y_train k)) = (n * 10)%nat) /\
  (exists m, length (data (x_test k)) = (m * 784)%nat /\
             length (data (y_test k)) = (m * 10)%nat).
Proof.
  intros H Wx Wy Wx' Wy'. destruct (cell1_inv B _ _ _ _ files0 k H)
    as (m0 & n & m & _ & _ & Sn & _ & Sm & Hy & Hy' & _ & _ & Ex & Ex' & Ey & Ey' & _).
  unfold wf in *.
  rewrite <- size_squeeze_last, Hy in Wy. rewrite <- size_squeeze_last, Hy' in Wy'.
  rewrite Ex, Ex', Ey, Ey'. cbn [shape data].
  rewrite !length_map, !length_flat_map_one_hot, Wx, Wx', Wy, Wy', Sn, Sm.
  unfold size; simpl. repeat split; try lia; [exists n|exists m]; lia.
Qed.

Lemma cell1_output_witness :
  exists k : Kernel Samples.still_backend,
    cell1 Samples.still_backend Samples.tiny_mnist ∅ = Some k /\
    stdout k = [[PStr "x_train shape:"; PShape [1; 28; 28; 1]%nat];
                [PInt 1; PStr "train samples"];
                [PInt 1; PStr "test samples"];
                [PStr "Epoch 1/2"];
                [PStr "Epoch 2/2"];
                [PStr "Test loss:"; PFloat 0];
                [PStr "Test accuracy:"; PFloat 1]].
Proof.
  assert (S : is_Some (cell1 Samples.still_backend Samples.tiny_mnist ∅))
    by (vm_compute; eauto).
  destruct S as [k Hk]. exists k. split; [exact Hk|].
  destruct (cell1_output Samples.still_backend
              Samples.tiny_x_train Samples.tiny_y_train Samples.tiny_x_test Samples.tiny_y_test
              ∅ k Hk) as (n & m & l & a & m0 & pr & En & Em & _ & Hl & Ha & _ & Hp & Ho).
  injection En as <-. injection Em as <-. rewrite Ho, Hl, Ha, Hp. reflexivity.
Defined.

Lemma labels_are_one_hot_witness :
  exists k : Kernel Samples.still_backend,
    cell1 Samples.still_backend Samples.tiny_mnist ∅ = Some k /\
    hot_index (row 10 0 (y_train k)) = Some 3%nat /\
    hot_index (row 10 0 (y_test k)) = Some 7%nat.
Proof.
  assert (S : is_Some (cell1 Samples.still_backend Samples.tiny_mnist ∅))
    by (vm_compute; eauto).
  destruct S as [k Hk]. exists k. split; [exact Hk|].
  destruct (labels_are_one_hot Samples.still_backend
              Samples.tiny_x_train Samples.tiny_y_train Samples.tiny_x_test Samples.tiny_y_test
              ∅ k Hk) as [Htrain Htest].
  split.
  - apply (Htrain 0%nat Byte.x03). reflexivity.
  - apply (Htest 0%nat Byte.x07). reflexivity.
Defined.

Lemma cell1_keeps_arrays_well_formed_witness :
  exists k : Kernel Samples.still_backend,
    cell1 Samples.still_backend Samples.tiny_mnist ∅ = Some k /\
    wf (x_train k) /\ wf (y_train k).
Proof.
  assert (S : is_Some (cell1 Samples.still_backend Samples.tiny_mnist ∅))
    by (vm_compute; eauto).
  destruct S as [k Hk]. exists k. split; [exact Hk|].
  destruct (cell1_keeps_arrays_well_formed Samples.still_backend
              Samples.tiny_x_train Samples.tiny_y_train Samples.tiny_x_test Samples.tiny_y_test
              ∅ k Hk) as (W1 & W2 & _); try reflexivity.
  split; assumption.
Defined.

End Part13aMore.

(** ** Part 12, further properties *)

Module Part12More.
Import Syft Part12 Part12Terms Part12Facts TorchFacts Array.

Lemma nth_zeros (l : list Z) (i : nat) : zeros l -> nth i l 0%Z = 0%Z.
Proof.
  intros H. revert i. induction H as [|z l -> _ IH]; intros [|i]; simpl; auto.
Qed.

Lemma sum_to_zero (n : nat) (f : nat -> Z) : (forall i, f i = 0%Z) -> Torch.sum_to n f = 0%Z.
Proof.
  intros H. induction n as [|n IH]; [reflexivity|]. rewrite sum_to_S, IH, H. reflexivity.
Qed.

Lemma zeros_grid (f : nat -> nat -> Z) (n m : nat) :
  (forall i j, f i j = 0%Z) ->
  zeros (flat_map (fun i => map (f i) (seq 0 m)) (seq 0 n)).
Proof.
  intros H. apply Forall_forall. intros z Hz.
  apply list_elem_of_In, in_flat_map in Hz as (i & _ & Hz).
  apply in_map_iff in Hz as (j & <- & _). apply H.
Qed.

Lemma matmul_zeros_r (a b c : ndarray Z) :
  Torch.matmul a b = Some c -> zeros (data b) -> zeros (data c).
Proof.
  unfold Torch.matmul. intros H Hz.
  destruct (shape a) as [|n [|k [|? ?]]]; try discriminate.
  destruct (shape b) as [|k' [|m [|? ?]]]; try discriminate.
  destruct (k =? k')%nat; [|discriminate]. injection H as <-. simpl.
  apply zeros_grid. intros i j. unfold Torch.dot.
  apply sum_to_zero. intros l. unfold Torch.at2 at 2. rewrite (nth_zeros _ _ Hz). lia.
Qed.

Lemma broadcast_mul_zeros (a b c : ndarray Z) :
  Torch.mul a b = Some c -> zeros (data a) \/ zeros (data b) -> zeros (data c).
Proof.
  unfold Torch.mul, Torch.broadcast. intros H Hz.
  destruct (Torch.view2 (shape a)) as [[ra ca]|]; [|discriminate]. simpl in H.
  destruct (Torch.view2 (shape b)) as [[rb cb]|]; [|discriminate]. simpl in H.
  destruct (Torch.bdim ra rb) as [r|]; [|discriminate]. simpl in H.
  destruct (Torch.bdim ca cb) as [c0|]; [|discriminate]. simpl in H.
  injection H as <-. simpl.
  apply zeros_grid. intros i j. unfold Torch.bget.
  destruct Hz as [Hz|Hz]; rewrite (nth_zeros _ _ Hz); lia.
Qed.

Lemma truncate_zeros (s : positive) (rnd : Rounding) (a : ndarray Z) :
  zeros (data a) -> zeros (data (truncate s rnd a)).
Proof.
  unfold truncate, amap; simpl. intros H.
  induction H as [|z l -> _ IH]; constructor; auto.
  destruct rnd; reflexivity.
Qed.

(** Taking a column of zeros away from a column leaves the column. *)
Lemma sub_zeros_r (M st : ndarray Z) (k : nat) :
  shape M = [k; 1%nat] -> length (data M) = k -> shape st = [k; 1%nat] ->
  zeros (data st) -> Torch.sub M st = Some M.
Proof.
  intros HM LM Hs Hz. unfold Torch.sub, Torch.broadcast. rewrite HM, Hs. simpl.
  unfold Torch.bdim. rewrite Nat.eqb_refl. simpl.
  destruct M as [sh d]. simpl in *. subst sh. do 2 f_equal.
  apply (nth_ext _ _ 0%Z 0%Z).
  - rewrite (flat_map_constant_length (c := 1%nat)) by (intros; reflexivity).
    rewrite length_seq. lia.
  - intros i Hi.
    assert (Hk : (i < k)%nat).
    { rewrite (flat_map_constant_length (c := 1%nat)) in Hi by (intros; reflexivity).
      rewrite length_seq in Hi. lia. }
    replace i with ((i - 0) * 1 + 0)%nat at 1 by lia.
    rewrite (nth_grid (fun i j => (Torch.bget {| shape := [k; 1%nat]; data := d |} k 1 i j -
                                   Torch.bget st k 1 i j)%Z)) by lia.
    unfold Torch.bget. rewrite (nth_zeros _ _ Hz). simpl.
    destruct (k =? 1)%nat eqn:E.
    + apply Nat.eqb_eq in E. replace i with 0%nat by lia. simpl. lia.
    + replace (i * 1 + 0)%nat with i by lia. lia.
Qed.

Lemma lift2_eq (f : ndarray Z -> ndarray Z -> option (ndarray Z))
    (X a b : AdditiveSharingTensor) (c : ndarray Z) :
  held_like X a -> held_like X b -> f (child a) (child b) = Some c ->
  lift2 f a b =
  Some {| child := c; owners := owners a; crypto_provider := crypto_provider a |}.
Proof.
  intros Ha Hb Hf. unfold lift2. now rewrite (same_parties_true X a b Ha Hb), Hf.
Qed.

Lemma lift2_parties (f : ndarray Z -> ndarray Z -> option (ndarray Z))
    (a b r : AdditiveSharingTensor) :
  lift2 f a b = Some r ->
  owners r = owners a /\ crypto_provider r = crypto_provider a.
Proof.
  unfold lift2. destruct (same_parties a b); [|discriminate].
  destruct (f (child a) (child b)); [|discriminate]. now intros [= <-].
Qed.

Section Exact.

Variable s : positive.
Variable rnd : Rounding.

(** One pass through the loop body in exact fixed precision, step by
    step, on tensors of matching shapes. *)
Lemma loop_body_trace (i n k : nat) (e : Env AdditiveSharingTensor) :
  regression_shapes n k e ->
  exists e0 g0 s0 m0 : ndarray Z,
    @residual _ _ (exact_api s rnd) (data_enc e) (target_enc e) (model_enc e) =
      Some {| child := e0; owners := owners (data_enc e);
              crypto_provider := crypto_provider (data_enc e) |} /\
    (zeros (data e0) -> zeros (data g0)) /\
    Torch.mul (truncate s rnd g0) (child (learning_rate_fp e)) = Some s0 /\
    shape s0 = [k; 1%nat] /\
    Torch.sub (child (model_enc e)) (truncate s rnd s0) = Some m0 /\
    @loop_body _ _ (exact_api s rnd) i e =
      Some {| data_enc := data_enc e;
              target_enc := target_enc e;
              model_enc := {| child := m0; owners := owners (model_enc e);
                              crypto_provider := crypto_provider (model_enc e) |};
              learning_rate_fp := learning_rate_fp e;
              stdout := stdout e ++
                        [FixedPrecision.float_precision s (Torch.sum (Torch.abs e0))] |}.
Proof.
  intros (HX & Hy & HM & Hlr & Py & PM & Plr).
  set (X := data_enc e) in *. set (y := target_enc e) in *.
  set (M := model_enc e) in *. set (lr := learning_rate_fp e) in *.
  pose proof (held_like_refl X) as PX.
  destruct (matmul_entries _ _ n k 1 HX HM) as (p0 & Ep0 & Sp0 & _).
  assert (Epred := lift2_eq (fp_matmul s rnd) X X M (truncate s rnd p0) PX PM
                     ltac:(unfold fp_matmul; now rewrite Ep0)).
  set (pred := {| child := truncate s rnd p0 |}) in Epred.
  assert (Ppred : held_like X pred) by (split; reflexivity).
  destruct (broadcast_column_entries Z.sub (child pred) (child y) n Sp0 Hy)
    as (e0 & Ee0 & Se0 & _).
  assert (Eerr := lift2_eq Torch.sub X pred y e0 Ppred Py Ee0).
  set (err := {| child := e0 |}) in Eerr.
  assert (Perr : held_like X err) by (split; reflexivity).
  destruct (t_entries _ n k HX) as (t0 & Et0 & St0 & _).
  assert (Et : lift1 Torch.t X =
               Some {| child := t0; owners := owners X;
                       crypto_provider := crypto_provider X |})
    by (unfold lift1; now rewrite Et0).
  set (Xt := {| child := t0 |}) in Et.
  assert (PXt : held_like X Xt) by (split; reflexivity).
  destruct (matmul_entries t0 e0 k n 1 St0 Se0) as (g0 & Eg0 & Sg0 & _).
  assert (Eupd := lift2_eq (fp_matmul s rnd) X Xt err (truncate s rnd g0) PXt Perr
                    ltac:(unfold fp_matmul; simpl; now rewrite Eg0)).
  set (update := {| child := truncate s rnd g0 |}) in Eupd.
  assert (Pupd : held_like X update) by (split; reflexivity).
  destruct (broadcast_scalar_shape Z.mul (truncate s rnd g0) (child lr) k Sg0 Hlr)
    as (s0 & Es0 & Ss0).
  assert (Estep := lift2_eq (fp_mul s rnd) X update lr (truncate s rnd s0) Pupd Plr
                     ltac:(unfold fp_mul, Torch.mul; simpl; now rewrite Es0)).
  set (step := {| child := truncate s rnd s0 |}) in Estep.
  assert (Pstep : held_like X step) by (split; reflexivity).
  destruct (broadcast_column_entries Z.sub (child M) (child step) k HM Ss0)
    as (m0 & Em0 & Sm0 & _).
  assert (EM' := lift2_eq Torch.sub X M step m0 PM Pstep Em0).
  exists e0, g0, s0, m0.
  split; [unfold residual; simpl; fold X y M; rewrite Epred; simpl; exact Eerr|].
  split; [intros Hz; exact (matmul_zeros_r _ _ _ Eg0 Hz)|].
  split; [exact Es0|]. split; [exact Ss0|]. split; [exact Em0|].
  unfold loop_body. simpl. fold X y M lr.
  rewrite Epred. simpl. rewrite Eerr. simpl. rewrite Et. simpl.
  rewrite Eupd. simpl. rewrite Estep. simpl. rewrite EM'. reflexivity.
Qed.

(** A pass whose scaled step is zero leaves every variable as it is. *)
Lemma loop_body_still (i n k : nat) (e : Env AdditiveSharingTensor) :
  regression_shapes n k e ->
  length (data (child (model_enc e))) = k ->
  (exists err,
     @residual _ _ (exact_api s rnd) (data_enc e) (target_enc e) (model_enc e) = Some err /\
     zeros (data (child err))) \/
  zeros (data (child (learning_rate_fp e))) ->
  exists err,
    @residual _ _ (exact_api s rnd) (data_enc e) (target_enc e) (model_enc e) = Some err /\
    @loop_body _ _ (exact_api s rnd) i e =
      Some (with_output e [FixedPrecision.float_precision s (Torch.sum (Torch.abs (child err)))]).
Proof.
  intros Hs LM Hz.
  destruct (loop_body_trace i n k e Hs) as (e0 & g0 & s0 & m0 & Er & Zg & Es0 & Ss0 & Em0 & Eb).
  destruct Hs as (HX & Hy & HM & Hlr & Py & PM & Plr).
  assert (Zs : zeros (data s0)).
  { apply (broadcast_mul_zeros _ _ _ Es0).
    destruct Hz as [(err & Er' & Zerr)|Zlr]; [left|right; exact Zlr].
    apply truncate_zeros, Zg. rewrite Er in Er'. injection Er' as <-. exact Zerr. }
  rewrite (sub_zeros_r (child (model_enc e)) (truncate s rnd s0) k HM LM Ss0
             (truncate_zeros s rnd s0 Zs)) in Em0.
  injection Em0 as <-.
  eexists. split; [exact Er|]. rewrite Eb. unfold with_output. simpl.
  destruct e as [X y [cM oM pM] lr out]; reflexivity.
Qed.

Lemma zero_loss_eq (a : ndarray Z) :
  zeros (data a) -> FixedPrecision.float_precision s (Torch.sum (Torch.abs a)) = zero_loss s.
Proof.
  intros H. unfold zero_loss, FixedPrecision.float_precision, Torch.sum, Torch.abs, amap.
  simpl. do 3 f_equal.
  induction H as [|z l -> _ IH]; [reflexivity|]. simpl. now rewrite IH.
Qed.

Lemma abs_total_nonneg (l : list Z) : (0 <= fold_right Z.add 0 (map Z.abs l))%Z.
Proof. induction l as [|z l IH]; simpl; lia. Qed.

Lemma decode_nonneg (z : Z) : (0 <= z)%Z -> (0 <= FixedPrecision.decode s z)%Q.
Proof.
  intros H. unfold FixedPrecision.decode, FixedPrecision.scaleQ, Qle, Qdiv, Qmult, Qinv, inject_Z.
  simpl. lia.
Qed.

(** What [descend] prints. *)
Lemma descend_printed (n : nat) (X y lr M M' : AdditiveSharingTensor)
    (printed : list (ndarray Q)) :
  @descend _ _ (exact_api s rnd) n X y lr M = Some (M', printed) ->
  length printed = n /\
  Forall (fun p => shape p = [1%nat] /\
                   exists z : Z, (0 <= z)%Z /\ data p = [FixedPrecision.decode s z]) printed.
Proof.
  revert M' printed. induction n as [|n IH]; intros M' printed.
  - intros [= <- <-]. split; [reflexivity|constructor].
  - simpl. destruct (descend n X y lr M) as [[M1 pr]|]; [|discriminate]. simpl.
    destruct (IH M1 pr eq_refl) as [L F].
    unfold reported_loss at 1.
    destruct (residual X y M1) as [err|]; [|discriminate]. simpl.
    destruct (gradient_step X y lr M1) as [M2|]; [|discriminate]. simpl.
    intros [= <- <-]. split; [rewrite length_app; simpl; lia|].
    apply Forall_app. split; [exact F|]. constructor; [|constructor].
    split; [reflexivity|]. eexists. split; [apply abs_total_nonneg|reflexivity].
Qed.

End Exact.

Lemma with_output_nil {Shared : Type} (e : Env Shared) : with_output e [] = e.
Proof. destruct e. unfold with_output. simpl. now rewrite app_nil_r. Qed.

Lemma with_output_app {Shared : Type} (e : Env Shared) (a b : list (ndarray Q)) :
  with_output (with_output e a) b = with_output e (a ++ b).
Proof. unfold with_output. simpl. now rewrite app_assoc. Qed.

(** A loop whose body only prints [l] prints it [n] times. *)
Lemma for_range_still {Shared : Type} (body : nat -> Env Shared -> option (Env Shared))
    (e : Env Shared) (l : ndarray Q) (n : nat) :
  (forall i out, body i (with_output e out) = Some (with_output e (out ++ [l]))) ->
  for_range n body e = Some (with_output e (repeat l n)).
Proof.
  intros H. induction n as [|n IH].
  - unfold for_range. simpl. now rewrite with_output_nil.
  - rewrite for_range_S, IH. simpl. rewrite H. now rewrite <- repeat_cons.
Qed.

(** A failing first pass ends the loop. *)
Lemma for_range_None {S : Type} (body : nat -> S -> option S) (st : S) (n : nat) :
  body 0%nat st = None -> for_range (Datatypes.S n) body st = None.
Proof.
  intros H. unfold for_range. simpl. rewrite H.
  generalize (seq 1 n). intros l. induction l as [|i l IH]; simpl; auto.
Qed.

(** Passes add up when the body does not look at the counter. *)
Lemma for_range_add {S : Type} (body : nat -> S -> option S) (st : S) (n m : nat) :
  (forall i j x, body i x = body j x) ->
  for_range (n + m) body st = for_range n body st ≫= for_range m body.
Proof.
  intros H. induction m as [|m IH].
  - rewrite Nat.add_0_r. destruct (for_range n body st); reflexivity.
  - rewrite Nat.add_succ_r, for_range_S, IH.
    destruct (for_range n body st) as [x|]; simpl; [|reflexivity].
    rewrite for_range_S. destruct (for_range m body x); simpl; [apply H|reflexivity].
Qed.

(** X7: whenever cell 6 runs to its end it has added twenty one-entry
    tensors to the output, each a non-negative integer over the scale:
    a printed loss is never negative. *)
Theorem printed_losses_nonnegative (s : positive) (rnd : Rounding)
    (e e' : Env AdditiveSharingTensor) :
  @cell6 _ _ (exact_api s rnd) e = Some e' ->
  exists printed : list (ndarray Q),
    stdout e' = stdout e ++ printed /\ length printed = 20%nat /\
    Forall (fun p => shape p = [1%nat] /\
                     exists z : Z, (0 <= z)%Z /\
                       data p = [(inject_Z z / inject_Z (Zpos s))%Q]) printed /\
    Forall (fun q => (0 <= q)%Q) (flat_map data printed).
Proof.
  unfold cell6. rewrite for_range_loop_body.
  destruct (descend 20 _ _ _ _) as [[M printed]|] eqn:E; [|discriminate].
  simpl. intros [= <-]. simpl.
  destruct (descend_printed s rnd _ _ _ _ _ _ _ E) as [L F].
  exists printed. repeat split; auto.
  clear E L. induction F as [|p l (_ & z & Hz & Hp) _ IH]; simpl; [constructor|].
  rewrite Hp. simpl. constructor; [now apply decode_nonneg|exact IH].
Qed.

(** X8: a model whose residual is zero is a fixed point of the
    training loop: the twenty passes leave it as it is and print the
    loss 0 each time. *)
Theorem fitted_model_stays (s : positive) (rnd : Rounding) (n k : nat)
    (e : Env AdditiveSharingTensor) (err : AdditiveSharingTensor) :
  regression_shapes n k e ->
  length (data (child (model_enc e))) = k ->
  @residual _ _ (exact_api s rnd) (data_enc e) (target_enc e) (model_enc e) = Some err ->
  zeros (data (child err)) ->
  @cell6 _ _ (exact_api s rnd) e = Some (with_output e (repeat (zero_loss s) 20)).
Proof.
  intros Hs LM Er Hz. unfold cell6. apply for_range_still. intros i out.
  destruct (loop_body_still s rnd i n k (with_output e out) Hs LM) as (err' & Er' & Eb).
  { left. exists err. split; assumption. }
  change (@residual _ _ (exact_api s rnd) (data_enc e) (target_enc e) (model_enc e) =
          Some err') in Er'.
  rewrite Er in Er'. injection Er' as <-.
  rewrite Eb, with_output_app. now rewrite (zero_loss_eq s _ Hz).
Qed.

(** X9: with a learning rate of zero the twenty passes leave the
    model as it is and print the same loss twenty times. *)
Theorem zero_rate_keeps_model (s : positive) (rnd : Rounding) (n k : nat)
    (e : Env AdditiveSharingTensor) :
  regression_shapes n k e ->
  length (data (child (model_enc e))) = k ->
  zeros (data (child (learning_rate_fp e))) ->
  exists loss : ndarray Q,
    @reported_loss _ _ (exact_api s rnd) (data_enc e) (target_enc e) (model_enc e) =
      Some loss /\
    @cell6 _ _ (exact_api s rnd) e = Some (with_output e (repeat loss 20)).
Proof.
  intros Hs LM Hz.
  destruct (loop_body_still s rnd 0 n k e Hs LM (or_intror Hz)) as (err & Er & _).
  eexists. split; [unfold reported_loss; rewrite Er; reflexivity|].
  unfold cell6. apply for_range_still. intros i out.
  destruct (loop_body_still s rnd i n k (with_output e out) Hs LM (or_intror Hz))
    as (err' & Er' & Eb).
  change (@residual _ _ (exact_api s rnd) (data_enc e) (target_enc e) (model_enc e) =
          Some err') in Er'.
  rewrite Er in Er'. injection Er' as <-.
  now rewrite Eb, with_output_app.
Qed.

(** X10: when the model has another number of rows than the data
    has columns, the first [matmul] fails and cell 6 ends with an error,
    nothing trained. *)
Theorem mismatched_model_stops_the_loop (s : positive) (rnd : Rounding) (n k k' m : nat)
    (e : Env AdditiveSharingTensor) :
  shape (child (data_enc e)) = [n; k] -> shape (child (model_enc e)) = [k'; m] ->
  k <> k' ->
  @cell6 _ _ (exact_api s rnd) e = None.
Proof.
  intros HX HM Hk. unfold cell6. apply for_range_None.
  assert (E : lift2 (fp_matmul s rnd) (data_enc e) (model_enc e) = None).
  { unfold lift2. destruct (same_parties _ _); [|reflexivity].
    unfold fp_matmul, Torch.matmul. rewrite HX, HM.
    apply Nat.eqb_neq in Hk. now rewrite Hk. }
  unfold loop_body. change (@matmul _ _ (exact_api s rnd)) with (lift2 (fp_matmul s rnd)).
  now rewrite E.
Qed.

Lemma loop_body_parties (s : positive) (rnd : Rounding) (i : nat)
    (e e' : Env AdditiveSharingTensor) :
  @loop_body _ _ (exact_api s rnd) i e = Some e' ->
  data_enc e' = data_enc e /\ target_enc e' = target_enc e /\
  learning_rate_fp e' = learning_rate_fp e /\
  owners (model_enc e') = owners (model_enc e) /\
  crypto_provider (model_enc e') = crypto_provider (model_enc e).
Proof.
  rewrite loop_body_spec.
  destruct (reported_loss _ _ _) as [loss|]; [|discriminate]. simpl.
  destruct (gradient_step _ _ _ _) as [M'|] eqn:E; [|discriminate]. simpl.
  intros [= <-]. simpl. repeat split.
  all: unfold gradient_step in E;
    destruct (residual _ _ _) as [err|]; [|discriminate]; simpl in E;
    destruct (lift1 Torch.t _) as [Xt|]; [|discriminate]; simpl in E;
    destruct (lift2 (fp_matmul s rnd) Xt err) as [g|]; [|discriminate]; simpl in E;
    destruct (lift2 (fp_mul s rnd) g _) as [sc|]; [|discriminate]; simpl in E;
    now apply lift2_parties in E.
Qed.

(** X11: if cell 6 runs to its end on the tensors shared in cell 5,
    the data, the target, the trained model and the learning rate are
    still held by alice and bob with james as crypto provider: the loop
    brings in no other party. *)
Theorem training_stays_among_the_parties (s : positive) (rnd : Rounding)
    (data target model : ndarray Q) (learning_rate : Q) (e' : Env AdditiveSharingTensor) :
  @cell6 _ _ (exact_api s rnd) (@cell5 _ _ (exact_api s rnd) data target model learning_rate)
    = Some e' ->
  Forall (fun x => owners x = [alice; bob] /\ crypto_provider x = james /\
                   parties x = {[ "alice"; "bob"; "james" ]})
         [data_enc e'; target_enc e'; model_enc e'; learning_rate_fp e'].
Proof.
  set (e := @cell5 _ _ (exact_api s rnd) data target model learning_rate).
  assert (G : forall n e1, @for_range _ n (@loop_body _ _ (exact_api s rnd)) e = Some e1 ->
            data_enc e1 = data_enc e /\ target_enc e1 = target_enc e /\
            learning_rate_fp e1 = learning_rate_fp e /\
            owners (model_enc e1) = owners (model_enc e) /\
            crypto_provider (model_enc e1) = crypto_provider (model_enc e)).
  { induction n as [|n IH]; intros e1.
    - intros [= <-]. repeat split.
    - rewrite for_range_S.
      destruct (for_range n _ e) as [e2|]; [|discriminate]. simpl. intros H.
      destruct (IH e2 eq_refl) as (A1 & A2 & A3 & A4 & A5).
      destruct (loop_body_parties s rnd n e2 e1 H) as (B1 & B2 & B3 & B4 & B5).
      repeat split; etransitivity; eassumption. }
  intros H. destruct (G 20%nat e' H) as (A1 & A2 & A3 & A4 & A5).
  assert (P : forall x, owners x = [alice; bob] -> crypto_provider x = james ->
              owners x = [alice; bob] /\ crypto_provider x = james /\
              parties x = {[ "alice"; "bob"; "james" ]}).
  { intros x Ho Hc. unfold parties. rewrite Ho, Hc. repeat split; simpl; set_solver. }
  rewrite A1, A2, A3.
  constructor; [apply P; reflexivity|]. constructor; [apply P; reflexivity|].
  constructor; [apply P; [rewrite A4|rewrite A5]; reflexivity|].
  constructor; [apply P; reflexivity|constructor].
Qed.

(** X12: running cell 6 again continues the training: two runs in a
    row are forty passes from the first model. *)
Theorem rerunning_cell6_continues (Fixed Shared : Type) (API : TensorAPI Fixed Shared)
    (e : Env Shared) :
  cell6 e ≫= cell6 = for_range 40 loop_body e.
Proof.
  unfold cell6. change 40%nat with (20 + 20)%nat.
  symmetry. apply for_range_add. reflexivity.
Qed.

Lemma printed_losses_nonnegative_witness :
  exists (e' : Env AdditiveSharingTensor) (printed : list (ndarray Q)),
    @cell6 _ _ (exact_api 1000 Floor)
      (@cell5 _ _ (exact_api 1000 Floor) Part12.data target model learning_rate) = Some e' /\
    stdout e' = printed /\
    Forall (fun q => (0 <= q)%Q) (flat_map data printed).
Proof.
  assert (S : is_Some (@cell6 _ _ (exact_api 1000 Floor)
                (@cell5 _ _ (exact_api 1000 Floor) Part12.data target model learning_rate)))
    by (vm_compute; eauto).
  destruct S as [e' He'].
  destruct (printed_losses_nonnegative 1000 Floor _ e' He') as (printed & Ho & _ & _ & Hq).
  exists e', printed. split; [exact He'|]. split; [exact Ho|exact Hq].
Defined.

Lemma fitted_model_stays_witness :
  let e := @cell5 _ _ (exact_api 1000 Floor) Part12.data target fitted_model learning_rate in
  @cell6 _ _ (exact_api 1000 Floor) e = Some (with_output e (repeat (zero_loss 1000) 20)).
Proof.
  intros e.
  apply (fitted_model_stays 1000 Floor 4 2 e
           {| child := {| shape := [4; 1]%nat; data := [0; 0; 0; 0]%Z |};
              owners := [alice; bob]; crypto_provider := james |}).
  - repeat split.
  - reflexivity.
  - vm_compute. reflexivity.
  - repeat constructor.
Defined.

Lemma zero_rate_keeps_model_witness :
  let e := @cell5 _ _ (exact_api 1000 Floor) Part12.data target model 0 in
  exists loss : ndarray Q,
    @cell6 _ _ (exact_api 1000 Floor) e = Some (with_output e (repeat loss 20)).
Proof.
  intros e.
  destruct (zero_rate_keeps_model 1000 Floor 4 2 e) as (loss & _ & H).
  - repeat split.
  - reflexivity.
  - repeat constructor.
  - exists loss. exact H.
Defined.

Lemma mismatched_model_stops_the_loop_witness :
  @cell6 _ _ (exact_api 1000 Floor)
    (@cell5 _ _ (exact_api 1000 Floor) Part12.data target wide_model learning_rate) = None.
Proof.
  apply (mismatched_model_stops_the_loop 1000 Floor 4 2 3 1).
  - reflexivity.
  - reflexivity.
  - lia.
Defined.

Lemma training_stays_among_the_parties_witness :
  exists e' : Env AdditiveSharingTensor,
    @cell6 _ _ (exact_api 1000 Floor)
      (@cell5 _ _ (exact_api 1000 Floor) Part12.data target model learning_rate) = Some e' /\
    parties (model_enc e') = {[ "alice"; "bob"; "james" ]}.
Proof.
  assert (S : is_Some (@cell6 _ _ (exact_api 1000 Floor)
                (@cell5 _ _ (exact_api 1000 Floor) Part12.data target model learning_rate)))
    by (vm_compute; eauto).
  destruct S as [e' He']. exists e'. split; [exact He'|].
  pose proof (training_stays_among_the_parties 1000 Floor _ _ _ _ e' He') as F.
  inversion F as [|? ? _ F1]. inversion F1 as [|? ? _ F2].
  inversion F2 as [|? ? (_ & _ & HM) _]. exact HM.
Defined.

Lemma update_is_least_squares_gradient_witness :
  exists err g : ndarray Z,
    LeastSquares.lsq_residual data_int target_int model_int = Some err /\
    LeastSquares.lsq_update data_int target_int model_int = Some g.
Proof.
  destruct (update_is_least_squares_gradient data_int target_int model_int direction_int 4 2)
    as (err & err' & g & XD & H1 & _ & H3 & _); try reflexivity.
  exists err, g. split; assumption.
Defined.

End Part12More.
